(** * beancount.ingest.file: filing of importable documents

    A shallow embedding of [src/python/beancount/ingest/file.py] (the function
    [file], its helper [move_xdev_file] and the script's [main]) together
    with the parts of Python's [posixpath], [os], [shutil], [datetime] and
    [logging] that these functions call, and the properties of the filing
    pass that follow from the code.  Paths are those of POSIX, the C library
    is the one of GNU, and the time zone is the one the machine is set to. *)

From Stdlib Require Import ZArith Ascii String.
From stdpp Require Import base decidable option list gmap sets strings.

Local Open Scope Z_scope.

(** ** Text *)

Module Text.

Definition sep : ascii := "/"%char.

(** [c in s]. *)
Fixpoint contains (c : ascii) (s : string) : bool :=
    match s with
    | EmptyString => false
    | String a s' => bool_decide (a = c) || contains c s'
    end.

(** [s.split(c)] for a single-character separator: never the empty list. *)
Fixpoint split (c : ascii) (s : string) : list string :=
    match s with
    | EmptyString => [EmptyString]
    | String a s' =>
        if decide (a = c) then EmptyString :: split c s'
        else match split c s' with
             | [] => [String a EmptyString]
             | w :: ws => String a w :: ws
             end
    end.

(** [sep.join(l)]. *)
Fixpoint join (d : string) (l : list string) : string :=
    match l with
    | [] => EmptyString
    | [x] => x
    | x :: l' => x +:+ d +:+ join d l'
    end.

(** [s.replace(a, b)] for single characters [a] and [b]. *)
Fixpoint replace (a b : ascii) (s : string) : string :=
    match s with
    | EmptyString => EmptyString
    | String c s' => String (if decide (c = a) then b else c) (replace a b s')
    end.

(** [s.rstrip(c)]. *)
Fixpoint rstrip (c : ascii) (s : string) : string :=
    match s with
    | EmptyString => EmptyString
    | String a s' =>
        let r := rstrip c s' in
        if decide (a = c ∧ r = EmptyString) then EmptyString else String a r
    end.

(** [s == c * len(s)]. *)
Fixpoint all_char (c : ascii) (s : string) : bool :=
    match s with
    | EmptyString => true
    | String a s' => bool_decide (a = c) && all_char c s'
    end.

(** [s.startswith(p)]. *)
Fixpoint startswith (p s : string) : bool :=
    match p, s with
    | EmptyString, _ => true
    | String _ _, EmptyString => false
    | String a p', String b s' => bool_decide (a = b) && startswith p' s'
    end.

(** [s.endswith(c)] for one character. *)
Fixpoint endswith (c : ascii) (s : string) : bool :=
    match s with
    | EmptyString => false
    | String a EmptyString => bool_decide (a = c)
    | String _ s' => endswith c s'
    end.

Definition is_digit (c : ascii) : bool :=
    (48 <=? nat_of_ascii c)%nat && (nat_of_ascii c <=? 57)%nat.

Definition digit (n : nat) : ascii := ascii_of_nat (48 + n mod 10).

End Text.

(** ** [posixpath] *)

Module Path.
Import Text.

(** [(p[:i], p[i:])] with [i = p.rfind('/') + 1]. *)
Fixpoint cut (p : string) : string * string :=
    match p with
    | EmptyString => (EmptyString, EmptyString)
    | String a p' =>
        let (h, t) := cut p' in
        if decide (a = sep) then (String a h, t)
        else match h with
             | EmptyString => (EmptyString, String a t)
             | _ => (String a h, t)
             end
    end.

(** [posixpath.basename]. *)
Definition basename (p : string) : string := snd (cut p).

(** [posixpath.dirname]:
    [head = p[:i]; if head and head != sep*len(head): head = head.rstrip(sep)]. *)
Definition dirname (p : string) : string :=
    let head := fst (cut p) in
    if all_char sep head then head else rstrip sep head.

(** [posixpath.split]. *)
Definition split (p : string) : string * string := (dirname p, basename p).

(** One round of the loop of [posixpath.join]. *)
Definition join2 (path b : string) : string :=
    if startswith "/" b then b
    else if bool_decide (path = EmptyString) || endswith sep path then path +:+ b
    else path +:+ "/" +:+ b.

(** [posixpath.join(a, *p)]. *)
Definition join (a : string) (p : list string) : string := foldl join2 a p.

(** The number of leading slashes [posixpath.normpath] keeps. *)
Definition initial_slashes (path : string) : nat :=
    if startswith "/" path then
      if startswith "//" path && negb (startswith "///" path) then 2%nat else 1%nat
    else 0%nat.

(** One round of the component loop of [posixpath.normpath]. *)
Definition norm_step (slashes : nat) (new_comps : list string) (comp : string)
    : list string :=
    if bool_decide (comp = "") || bool_decide (comp = ".") then new_comps
    else if negb (bool_decide (comp = ".."))
            || (bool_decide (slashes = 0%nat) && bool_decide (new_comps = []))
            || bool_decide (last new_comps = Some "..")
         then new_comps ++ [comp]
         else removelast new_comps.

Definition norm_comps (slashes : nat) (comps : list string) : list string :=
    foldl (norm_step slashes) [] comps.

Fixpoint slashes_str (n : nat) : string :=
    match n with
    | O => ""
    | S n' => String sep (slashes_str n')
    end.

(** [posixpath.normpath]. *)
Definition normpath (path : string) : string :=
    if bool_decide (path = "") then "."
    else
      let n := initial_slashes path in
      let r := slashes_str n +:+ Text.join "/" (norm_comps n (Text.split sep path)) in
      if bool_decide (r = "") then "." else r.

End Path.

(** ** Dates *)

Module datetime.
Import Text.

(** A date of Python: the year is one of 1 to 9999, the month one of 1 to 12
    and the day one of 1 to 31.  The texts below are those of such dates. *)
Record date := Date { year : Z; month : Z; day : Z }.

#[global] Instance date_eq_dec : EqDecision date.
Proof. solve_decision. Defined.

Definition digits2 (n : Z) : string :=
    let k := Z.to_nat n in
    String (digit (k / 10)) (String (digit k) "").

Definition digits4 (n : Z) : string :=
    let k := Z.to_nat n in
    String (digit (k / 1000)) (String (digit (k / 100))
      (String (digit (k / 10)) (String (digit k) ""))).

(** [str(d)], which is [d.isoformat()]: [YYYY-MM-DD], the year padded with
    zeros to four digits. *)
Definition isoformat (d : date) : string :=
    digits4 (year d) +:+ "-" +:+ digits2 (month d) +:+ "-" +:+ digits2 (day d).

(** The year as [%Y] of the C library writes it: in decimal and not padded,
    so that the year 999 is [999]. *)
Definition strftime_Y (y : Z) : string :=
    let k := Z.to_nat y in
    if (k <? 10)%nat then String (digit k) ""
    else if (k <? 100)%nat then String (digit (k / 10)) (String (digit k) "")
    else if (k <? 1000)%nat then
      String (digit (k / 100)) (String (digit (k / 10)) (String (digit k) ""))
    else digits4 y.

(** ['{0:%Y-%m-%d}'.format(d)], which is [d.strftime('%Y-%m-%d')]: the text
    of [isoformat] from the year 1000 on, and a shorter year before. *)
Definition strftime_ymd (d : date) : string :=
    strftime_Y (year d) +:+ "-" +:+ digits2 (month d) +:+ "-" +:+ digits2 (day d).

(** The civil date of a day number counted from 1970-01-01. *)
Definition of_days (z0 : Z) : date :=
    let z := z0 + 719468 in
    let era := z / 146097 in
    let doe := z - era * 146097 in
    let yoe := (doe - doe / 1460 + doe / 36524 - doe / 146096) / 365 in
    let doy := doe - (365 * yoe + yoe / 4 - yoe / 100) in
    let mp := (5 * doy + 2) / 153 in
    let d := doy - (153 * mp + 2) / 5 + 1 in
    let m := if mp <? 10 then mp + 3 else mp - 9 in
    Date (yoe + era * 400 + (if m <=? 2 then 1 else 0)) m d.

(** [datetime.datetime.fromtimestamp(t).date()]: the civil date of the local
    day of the instant [t].  The instant is in microseconds since the epoch,
    which is how far [fromtimestamp] looks at the float it is given, and
    [utcoffset s] is how many seconds local time is ahead of UTC at the
    second [s].  The value is [None] where Python raises: the year is not
    one of 1 to 9999. *)
Definition fromtimestamp_date (utcoffset : Z → Z) (t : Z) : option date :=
    let s := t / 1000000 in
    let d := of_days ((s + utcoffset s) / 86400) in
    if (1 <=? year d) && (year d <=? 9999) then Some d else None.

Arguments strftime_Y : simpl never.
Arguments strftime_ymd : simpl never.
Arguments fromtimestamp_date : simpl never.

End datetime.

(** ** Exceptions and the state-and-exception monad *)

Inductive exn :=
| OSError (msg : string)
| FileNotFoundError (p : string)
| FileExistsError (p : string)
| IsADirectoryError (p : string)
| SameFileError (p : string)
| NoSpaceError (p : string)
| KeyError
| AttributeError
| ValueError
| RecursionError.

Inductive result (A : Type) :=
| Ok (a : A)
| Raise (e : exn).
Arguments Ok {A} a.
Arguments Raise {A} e.

Definition M (S A : Type) : Type := S → S * result A.

Definition ret {S A} (a : A) : M S A := λ s, (s, Ok a).
Definition raise {S A} (e : exn) : M S A := λ s, (s, Raise e).
Definition bind {S A B} (m : M S A) (k : A → M S B) : M S B :=
  λ s, match m s with
       | (s', Ok a) => k a s'
       | (s', Raise e) => (s', Raise e)
       end.

#[global] Instance M_ret {S} : MRet (M S) := λ A, @ret S A.
#[global] Instance M_bind {S} : MBind (M S) := λ A B k m, @bind S A B m k.

(** [for x in l: b = body(b, x)], an exception leaving the loop. *)
Fixpoint for_each {S A B} (body : B → A → M S B) (l : list A) (b : B) : M S B :=
  match l with
  | [] => ret b
  | x :: l' => b' ← body b x; for_each body l' b'
  end.

(** ** The file system *)

(** A regular file: its bytes and the time of its last modification, in
    microseconds since the epoch (the float that [getmtime] returns, as
    [fromtimestamp] rounds it). *)
Record inode := Inode { contents : string; mtime : Z }.

(** Regular files and directories by path, the free space of the device in
    bytes, the clock, and the time zone the machine is set to: [utcoffset s]
    is how many seconds local time is ahead of UTC at the second [s].  An
    object is its path: no links, no working directory. *)
Record filesystem := Filesystem {
  files : gmap string inode;
  dirs : gset string;
  free : nat;
  clock : Z;
  utcoffset : Z → Z
}.

Module os.

(** [os.path.exists]. *)
Definition exists_ (fs : filesystem) (p : string) : bool :=
    bool_decide (is_Some (files fs !! p)) || bool_decide (p ∈ dirs fs).

(** [os.path.getmtime]. *)
Definition getmtime (p : string) : M filesystem Z := λ fs,
    match files fs !! p with
    | Some f => (fs, Ok (mtime f))
    | None => (fs, Raise (FileNotFoundError p))
    end.

(** The directory a new entry [p] is made in is there. *)
Definition parent_ok (fs : filesystem) (p : string) : bool :=
    bool_decide (Path.dirname p = "") || bool_decide (Path.dirname p ∈ dirs fs).

(** [os.mkdir]. *)
Definition mkdir (p : string) : M filesystem unit := λ fs,
    if bool_decide (p = "") then (fs, Raise (FileNotFoundError p))
    else if exists_ fs p then (fs, Raise (FileExistsError p))
    else if negb (parent_ok fs p) then (fs, Raise (FileNotFoundError p))
    else (Filesystem (files fs) ({[p]} ∪ dirs fs) (free fs) (clock fs) (utcoffset fs),
          Ok tt).

(** [os.makedirs(name)], the recursion bounded by [n]. *)
Fixpoint makedirs_rec (n : nat) (name : string) : M filesystem unit :=
    match n with
    | O => raise RecursionError
    | S n' =>
        let (head, tail) := Path.split name in
        let (head, tail) :=
          if bool_decide (tail = "") then Path.split head else (head, tail) in
        λ fs,
          if negb (bool_decide (head = "")) && negb (bool_decide (tail = ""))
             && negb (exists_ fs head)
          then
            match makedirs_rec n' head fs with
            | (fs', Raise (FileExistsError _)) | (fs', Ok _) =>
                if bool_decide (tail = ".") then (fs', Ok tt) else mkdir name fs'
            | r => r
            end
          else mkdir name fs
    end.

Definition makedirs (name : string) : M filesystem unit :=
    makedirs_rec (S (String.length name)) name.

(** [os.remove]. *)
Definition remove (p : string) : M filesystem unit := λ fs,
    match files fs !! p with
    | Some f =>
        (Filesystem (delete p (files fs)) (dirs fs)
           (free fs + String.length (contents f)) (clock fs) (utcoffset fs),
         Ok tt)
    | None =>
        (fs, Raise (if bool_decide (p ∈ dirs fs) then IsADirectoryError p
                    else FileNotFoundError p))
    end.

End os.

Module shutil.

Definition size_at (fs : filesystem) (p : string) : nat :=
    from_option (λ f, String.length (contents f)) 0%nat (files fs !! p).

(** [shutil.copyfile(src, dst)]: the destination is opened for writing,
    which truncates it, and the bytes of the source are written to it; when
    the device runs out of space the bytes written so far stay in the
    destination and the copy raises. *)
Definition copyfile (src dst : string) : M filesystem unit := λ fs,
    match files fs !! src with
    | None => (fs, Raise (FileNotFoundError src))
    | Some f =>
        if bool_decide (src = dst) then (fs, Raise (SameFileError src))
        else if bool_decide (dst ∈ dirs fs) then (fs, Raise (IsADirectoryError dst))
        else if negb (os.parent_ok fs dst) then (fs, Raise (FileNotFoundError dst))
        else
          let room := (free fs + size_at fs dst)%nat in
          let n := String.length (contents f) in
          if (n <=? room)%nat then
            (Filesystem (<[dst := Inode (contents f) (clock fs)]> (files fs))
               (dirs fs) (room - n) (clock fs) (utcoffset fs), Ok tt)
          else
            (Filesystem
               (<[dst := Inode (String.substring 0 room (contents f)) (clock fs)]>
                  (files fs))
               (dirs fs) 0 (clock fs) (utcoffset fs), Raise (NoSpaceError dst))
    end.

End shutil.

(** [datetime.datetime.fromtimestamp(t).date()] on the machine.  The
    exception stands for Python's [ValueError], and for [OverflowError] and
    [OSError], which an instant too far for the C library gets. *)
Definition fromtimestamp_date (t : Z) : M filesystem datetime.date := λ fs,
  match datetime.fromtimestamp_date (utcoffset fs) t with
  | Some d => (fs, Ok d)
  | None => (fs, Raise ValueError)
  end.

(** ** Collaborators of the filing code *)

Module cache.
(** Modelled from the spec: [beancount.ingest.cache.FileMemo], the memoized
    accessor that owns the path of a candidate file; the filing code reads
    its attribute [name] and hands the object to the importers. *)
Record FileMemo := Build { name : string }.
End cache.

Module account.
(** Modelled from the spec: [beancount.core.account.sep], the separator of
    the account hierarchy, as in [Assets:Bank:Checking]. *)
Definition sep : ascii := ":"%char.
End account.

(** The capability of an importer: [name()], [identify(file)], which
    [find_imports] asks, and [file_account(file)], [file_date(file)] and
    [file_name(file)], which [file] asks; [None] stands for Python's [None]. *)
Module Importer.
Record t := Build {
    name : string;
    identify : cache.FileMemo → bool;
    file_account : cache.FileMemo → option string;
    file_date : cache.FileMemo → option datetime.date;
    file_name : cache.FileMemo → option string
  }.
End Importer.

(** ** The running program *)

(** The file system, the messages given to [logging.error] and the text
    written to the [logfile] argument ([None] when no log file is given). *)
Record process := Process {
  fs : filesystem;
  errors : list string;
  logfile : option (list string)
}.

Definition on_fs {A} (m : M filesystem A) : M process A := λ p,
  let (fs', r) := m (fs p) in (Process fs' (errors p) (logfile p), r).

Module logging.
Definition error (msg : string) : M process unit := λ p,
    (Process (fs p) (errors p ++ [msg]) (logfile p), Ok tt).
End logging.

Definition logfile_write (s : string) : M process unit := λ p,
  (Process (fs p) (errors p) ((λ out, out ++ [s]) <$> logfile p), Ok tt).

(** The state the program runs in, for the tests the code makes on it. *)
Definition get : M process process := λ p, (p, Ok p).

Definition nl : string := String (ascii_of_nat 10) "".

(** [re.match('\d\d\d\d-\d\d-\d\d', s)]. *)
Definition looks_dated (s : string) : bool :=
  match s with
  | String y1 (String y2 (String y3 (String y4 (String h1
      (String m1 (String m2 (String h2 (String d1 (String d2 _))))))))) =>
      Text.is_digit y1 && Text.is_digit y2 && Text.is_digit y3 && Text.is_digit y4
      && bool_decide (h1 = "-"%char)
      && Text.is_digit m1 && Text.is_digit m2
      && bool_decide (h2 = "-"%char)
      && Text.is_digit d1 && Text.is_digit d2
  | _ => false
  end.

(** A filing job: the file to move and where to. *)
Definition job : Type := string * string.

(** The local variables of [file] that live across the rounds of its loop. *)
Record locals := Locals { jobs : list job; has_errors : bool }.

(** [file_accounts], lines 75 to 77: the set of the answers of the importers,
    without [None]. *)
Definition file_accounts_of (importers : list Importer.t) (file : cache.FileMemo)
  : gset (option string) :=
  list_to_set ((λ importer, Importer.file_account importer file) <$> importers)
    ∖ {[None]}.

(** [date] and [date_source], lines 103 to 108. *)
Definition date_of (importer : Importer.t) (file : cache.FileMemo)
    (mtime_date : datetime.date) : datetime.date * string :=
  match Importer.file_date importer file with
  | Some date => (date, "mtime")
  | None => (mtime_date, "extracted")
  end.

(** [new_fullname], lines 130 to 132. *)
Definition new_fullname_of (destination file_account new_filename : string)
  : string :=
  Path.normpath
    (Path.join destination
       [Text.replace account.sep Text.sep file_account; new_filename]).

Section Filing.

(** [beancount.ingest.identify.find_imports]: the candidate files found
    under the given files and directories, each with the importers that
    claim it, in the order of the configuration.  The generator reads the
    file system only, and the loop of [file] that consumes it changes
    nothing there, so the sequence is a function of the file system the
    call starts in.  What the generator itself writes to the log file it
    is given is left out of the model. *)
Variable find_imports :
    list Importer.t → list string → filesystem → list (string * list Importer.t).

(** [beancount.utils.misc_utils.idify]. *)
Variable misc_utils_idify : string → string.

(** [clean_basename], lines 112 to 124, apart from the message of line 116. *)
Definition clean_basename_of (importer : Importer.t) (file : cache.FileMemo)
      (idify : bool) : string :=
    let clean_filename :=
      match Importer.file_name importer file with
      | None => cache.name file
      | Some n => n
      end in
    let clean_basename := Path.basename clean_filename in
    if idify then misc_utils_idify clean_basename else clean_basename.

(** One round of the loop of [file], lines 61 to 159. *)
Definition file_body (destination : string) (mkdirs overwrite idify : bool)
      (l : locals) (m : string * list Importer.t) : M process locals :=
    let '(filename, importers) := m in
    match importers with
    | [] => mret l
    | importer :: _ =>
        let file := cache.Build filename in
        let file_accounts := file_accounts_of importers file in
        if bool_decide (file_accounts = ∅) then
          logging.error ("No account provided by importers: "
                         +:+ Text.join ", " (Importer.name <$> importers));;
          mret l
        else if bool_decide (1 < size file_accounts)%nat then
          logging.error ("Ambiguous accounts from many importers: "
                         +:+ Text.join ", " (omap id (elements file_accounts)));;
          mret l
        else
          match elements file_accounts with
          | [] => raise KeyError
          | file_account :: _ =>
              mtime ← on_fs (os.getmtime filename);
              mtime_date ← on_fs (fromtimestamp_date mtime);
              let '(date, date_source) := date_of importer file mtime_date in
              (match Importer.file_name importer file with
               | Some n =>
                   if looks_dated n then
                     logging.error ("The importer's file_name() method should "
                                    +:+ "not date the returned filename.")
                   else mret tt
               | None => mret tt
               end);;
              let clean_basename := clean_basename_of importer file idify in
              let new_filename :=
                datetime.strftime_ymd date +:+ "." +:+ clean_basename in
              match file_account with
              | None => raise AttributeError
              | Some file_account =>
                  let new_fullname :=
                    new_fullname_of destination file_account new_filename in
                  p ← get;
                  (match logfile p with
                   | Some _ =>
                   logfile_write ("=== " +:+ filename +:+ nl);;
                   logfile_write nl;;
                   logfile_write ("  Importer:    " +:+ Importer.name importer +:+ nl);;
                   logfile_write ("  Account:     " +:+ file_account +:+ nl);;
                   logfile_write ("  Date:        " +:+ datetime.isoformat mtime_date
                                  +:+ " (from " +:+ date_source +:+ ")" +:+ nl);;
                   logfile_write ("  Destination: " +:+ new_fullname +:+ nl);;
                   logfile_write nl
                   | None => mret tt
                   end);;
                  let new_dirname := Path.dirname new_fullname in
                  p ← get;
                  if negb (os.exists_ (fs p) new_dirname) && negb mkdirs then
                    logging.error ("Destination directory '" +:+ new_dirname
                                   +:+ "' does not exist.");;
                    mret (Locals (jobs l) true)
                  else if negb overwrite && os.exists_ (fs p) new_fullname then
                    logging.error ("Destination file '" +:+ new_fullname
                                   +:+ "' already exists.");;
                    mret (Locals (jobs l) true)
                  else mret (Locals (jobs l ++ [(filename, new_fullname)])
                               (has_errors l))
              end
          end
    end.

(** [move_xdev_file], lines 173 to 196. *)
Definition move_xdev_file (src_filename dst_filename : string) (mkdirs : bool)
    : M filesystem unit :=
    let dst_dirname := Path.dirname dst_filename in
    (λ fs,
       if mkdirs then
         if negb (os.exists_ fs dst_dirname) then os.makedirs dst_dirname fs
         else (fs, Ok tt)
       else
         if negb (os.exists_ fs dst_dirname) then
           (fs, Raise (OSError ("Destination directory '" +:+ dst_dirname
                                +:+ "' does not exist.")))
         else (fs, Ok tt));;
    shutil.copyfile src_filename dst_filename;;
    os.remove src_filename.

(** The loop of lines 167 and 168. *)
Definition move_jobs (jobs : list job) (mkdirs : bool) : M filesystem unit :=
    for_each (λ _ '(old_filename, new_filename),
                move_xdev_file old_filename new_filename mkdirs) jobs tt.

(** The loop of lines 59 to 159: resolution of every candidate file. *)
Definition resolve (matches : list (string * list Importer.t))
      (destination : string) (mkdirs overwrite idify : bool) : M process locals :=
    for_each (file_body destination mkdirs overwrite idify) matches
      (Locals [] false).

(** Lines 59 to 170 of [file], on the sequence that [find_imports] yields.
    The value is [None] for the bare [return] of line 164 and [Some jobs]
    for line 170. *)
Definition file_matches (matches : list (string * list Importer.t))
      (destination : string) (dry_run mkdirs overwrite idify : bool)
    : M process (option (list job)) :=
    l ← resolve matches destination mkdirs overwrite idify;
    if dry_run || has_errors l then mret None
    else
      on_fs (move_jobs (jobs l) mkdirs);;
      mret (Some (jobs l)).

(** [file], lines 24 to 170.  The argument [logfile] is the component
    [logfile] of the state. *)
Definition file (importer_config : list Importer.t)
      (files_or_directories : list string) (destination : string)
      (dry_run mkdirs overwrite idify : bool) : M process (option (list job)) :=
    p ← get;
    file_matches (find_imports importer_config files_or_directories (fs p))
      destination dry_run mkdirs overwrite idify.

End Filing.

(** ** What a round of the loop leaves behind *)

(** The text of lines 136 to 143, one entry for each [write]. *)
Definition report_block (filename : string) (importer : Importer.t)
    (file_account : string) (mtime_date : datetime.date)
    (date_source new_fullname : string) : list string :=
  [ "=== " +:+ filename +:+ nl;
    nl;
    "  Importer:    " +:+ Importer.name importer +:+ nl;
    "  Account:     " +:+ file_account +:+ nl;
    "  Date:        " +:+ datetime.isoformat mtime_date
      +:+ " (from " +:+ date_source +:+ ")" +:+ nl;
    "  Destination: " +:+ new_fullname +:+ nl;
    nl ].

(** The message of line 116, when the importer's name for the file starts
    with a date. *)
Definition dated_warning (importer : Importer.t) (file : cache.FileMemo)
  : list string :=
  match Importer.file_name importer file with
  | Some n =>
      if looks_dated n
      then ["The importer's file_name() method should "
            +:+ "not date the returned filename."]
      else []
  | None => []
  end.

(** The answers other than [None] that the importers give for the account of
    a file, in the order of the importers. *)
Definition declared_accounts (importers : list Importer.t) (file : cache.FileMemo)
  : list string :=
  omap (λ importer, Importer.file_account importer file) importers.

(** The date a file is filed under: the one its importer extracts, else the
    day [mtime_date] it was last modified. *)
Definition resolved_date (importer : Importer.t) (file : cache.FileMemo)
    (mtime_date : datetime.date) : datetime.date :=
  from_option id mtime_date (Importer.file_date importer file).

(** The local day a file of the file system [fs0] was last modified, where
    [fromtimestamp] of line 97 gives one. *)
Definition mtime_date_of (fs0 : filesystem) (f : inode) : option datetime.date :=
  datetime.fromtimestamp_date (utcoffset fs0) (mtime f).

(** The checks of lines 145 to 157 pass: the directory of the destination is
    there or will be made, and the destination is free or may be overwritten. *)
Definition destination_ok (fs : filesystem) (mkdirs overwrite : bool)
    (new_fullname : string) : bool :=
  negb (negb (os.exists_ fs (Path.dirname new_fullname)) && negb mkdirs)
  && negb (negb overwrite && os.exists_ fs new_fullname).

(** The destination of a file of account [file_account] whose first importer
    is [importer]: [new_fullname] of line 130 as a function of what it is
    computed from. *)
Definition filed_as (misc_utils_idify : string → string) (destination : string)
    (idify : bool) (filename : string) (importer : Importer.t)
    (file_account : string) (mtime_date : datetime.date) : string :=
  let file := cache.Build filename in
  new_fullname_of destination file_account
    (datetime.strftime_ymd (resolved_date importer file mtime_date) +:+ "."
     +:+ clean_basename_of misc_utils_idify importer file idify).

(** A job of the batch comes from a candidate file with one account, and its
    destination passed the checks on the file system [fs0]. *)
Definition job_resolved (misc_utils_idify : string → string)
    (matches : list (string * list Importer.t)) (destination : string)
    (mkdirs overwrite idify : bool) (fs0 : filesystem) (j : job) : Prop :=
  ∃ importer rest file_account f mtime_date,
    (j.1, importer :: rest) ∈ matches ∧
    file_accounts_of (importer :: rest) (cache.Build j.1) = {[Some file_account]} ∧
    files fs0 !! j.1 = Some f ∧
    mtime_date_of fs0 f = Some mtime_date ∧
    j.2 = filed_as misc_utils_idify destination idify j.1 importer file_account
            mtime_date ∧
    destination_ok fs0 mkdirs overwrite j.2 = true.

(** A name that stays one component of a path: no separator in it, and it is
    none of the empty name, [.] and [..]. *)
Definition plain_name (f : string) : Prop :=
  Text.contains Text.sep f = false ∧ f ≠ "" ∧ f ≠ "." ∧ f ≠ "..".

(** The directory of an account under the destination: the account's path
    joined to the destination, normalized. *)
Definition account_directory (destination file_account : string) : string :=
  Path.normpath
    (Path.join destination [Text.replace account.sep Text.sep file_account]).

(** What [normpath] keeps of a path is made of components that are not empty
    and have no separator. *)
Definition kept_component (c : string) : Prop :=
  Text.contains Text.sep c = false ∧ c ≠ "".

(** No two jobs of a batch have the same destination. *)
Definition unique_destinations (js : list job) : Prop := NoDup js.*2.

(** ** Runs of the program on small inputs *)

Module Scenario.

(** A stand-in for [misc_utils.idify]: blanks become underscores. *)
Definition idify (s : string) : string := Text.replace " " "_" s.

(** A stand-in for [find_imports]: the inputs are candidate files, and each
    comes with the importers of the configuration that identify it, in the
    order of the configuration. *)
Definition find_imports (importer_config : list Importer.t)
      (files_or_directories : list string) (_ : filesystem)
    : list (string * list Importer.t) :=
    (λ filename,
       (filename,
        filter (λ importer, Importer.identify importer (cache.Build filename))
          importer_config))
      <$> files_or_directories.

Definition claims (names : list string) : cache.FileMemo → bool :=
    λ file, bool_decide (cache.name file ∈ names).

Definition no_answer {A} : cache.FileMemo → option A := λ _, None.

(** Importer A of account [Assets:Bank:Checking]; it extracts no date. *)
Definition checking : Importer.t :=
    Importer.Build "A" (claims ["statement.pdf"; "in1/s.pdf"; "in2/s.pdf"])
      (λ _, Some "Assets:Bank:Checking") no_answer no_answer.

(** The same importer, extracting the date 2014-01-15 from the file. *)
Definition checking_dated : Importer.t :=
    Importer.Build "A" (claims ["statement.pdf"])
      (λ _, Some "Assets:Bank:Checking")
      (λ _, Some (datetime.Date 2014 1 15)) no_answer.

(** The same importer, naming the file with a directory part. *)
Definition checking_renaming : Importer.t :=
    Importer.Build "A" (claims ["statement.pdf"])
      (λ _, Some "Assets:Bank:Checking") no_answer
      (λ _, Some "../../etc/bank statement.pdf").

(** An importer that claims a file and knows no account for it. *)
Definition unknown : Importer.t :=
    Importer.Build "B" (claims ["invoice.csv"]) no_answer no_answer no_answer.

Definition assets_a : Importer.t :=
    Importer.Build "A" (claims ["invoice.csv"]) (λ _, Some "Assets:A")
      no_answer no_answer.

Definition assets_b : Importer.t :=
    Importer.Build "B" (claims ["invoice.csv"]) (λ _, Some "Assets:B")
      no_answer no_answer.

(** 2014-06-08 00:00:00 UTC, in microseconds. *)
Definition june_8 : Z := 1402185600000000.

(** Greenwich: local time is UTC. *)
Definition utc : Z → Z := λ _, 0.

(** A download directory with four files and the documents tree [/docs]. *)
Definition downloads : filesystem :=
    Filesystem
      {[ "statement.pdf" := Inode "%PDF-1.4" june_8;
         "invoice.csv" := Inode "a,b" june_8;
         "in1/s.pdf" := Inode "first" june_8;
         "in2/s.pdf" := Inode "second" june_8 ]}
      {[ "/"; "/docs"; "in1"; "in2" ]}
      1000 (june_8 + 86400000000) utc.

(** The same with room for four bytes only. *)
Definition nearly_full : filesystem :=
    Filesystem (files downloads) (dirs downloads) 4 (clock downloads) utc.

(** The same with the directory of the checking account in place. *)
Definition documents : filesystem :=
    Filesystem (files downloads)
      ({[ "/docs/Assets"; "/docs/Assets/Bank"; "/docs/Assets/Bank/Checking" ]}
       ∪ dirs downloads)
      (free downloads) (clock downloads) utc.

(** The same download directory on a machine five hours west of Greenwich,
    where these files were last modified on the evening of 2014-06-07. *)
Definition abroad : filesystem :=
    Filesystem (files downloads) (dirs downloads) (free downloads)
      (clock downloads) (λ _, -18000).

(** A statement that was last modified, its inode says, on the first day of
    the year 10000. *)
Definition misdated : filesystem :=
    Filesystem {[ "statement.pdf" := Inode "%PDF-1.4" 253402300800000000 ]}
      {[ "/"; "/docs" ]} 1000 (clock downloads) utc.

(** An importer of the checking account that reads the date 999-01-02 in
    the file. *)
Definition deed : Importer.t :=
    Importer.Build "A" (claims ["statement.pdf"])
      (λ _, Some "Assets:Bank:Checking")
      (λ _, Some (datetime.Date 999 1 2)) no_answer.


(** The program at its start, with a log file that is still empty. *)
Definition start (fs : filesystem) : process := Process fs [] (Some []).

Definition filed_statement : string :=
    "/docs/Assets/Bank/Checking/2014-06-08.statement.pdf".

(** What [find_imports] yields for an unrecognized file and a statement
    that its importer renames. *)
Definition renamed : list (string * list Importer.t) :=
    [("invoice.csv", []); ("statement.pdf", [checking_renaming])].

Definition filed_renamed : string :=
    "/docs/Assets/Bank/Checking/2014-06-08.bank_statement.pdf".

(** [file] on the stand-ins. *)
Definition run (importer_config : list Importer.t)
      (files_or_directories : list string) (destination : string)
      (dry_run mkdirs overwrite idify_names : bool) (fs : filesystem)
    : process * result (option (list job)) :=
    file find_imports idify importer_config files_or_directories destination
      dry_run mkdirs overwrite idify_names (start fs).

End Scenario.


(** ** The run as a function of its candidates *)

(** The account of a file whose importers give exactly one. *)
Definition sole_account (importers : list Importer.t) (file : cache.FileMemo)
  : option string :=
  match elements (file_accounts_of importers file) with
  | [Some file_account] => Some file_account
  | _ => None
  end.

(** Where a candidate is to be filed, seen from the file system [fs0]: the
    destination of line 130 for a candidate that has importers, one account
    and is a file with a day of last modification, and nothing for any
    other. *)
Definition destination_of (misc_utils_idify : string → string)
    (destination : string) (idify : bool) (fs0 : filesystem)
    (m : string * list Importer.t) : option string :=
  match m.2 with
  | [] => None
  | importer :: _ =>
      match sole_account m.2 (cache.Build m.1), files fs0 !! m.1 with
      | Some file_account, Some f =>
          match mtime_date_of fs0 f with
          | Some mtime_date =>
              Some (filed_as misc_utils_idify destination idify m.1 importer
                      file_account mtime_date)
          | None => None
          end
      | _, _ => None
      end
  end.

(** The job of a candidate: its destination, when the checks of lines 145 to
    157 let it pass. *)
Definition job_of (misc_utils_idify : string → string) (destination : string)
    (mkdirs overwrite idify : bool) (fs0 : filesystem)
    (m : string * list Importer.t) : option job :=
  match destination_of misc_utils_idify destination idify fs0 m with
  | Some new_fullname =>
      if destination_ok fs0 mkdirs overwrite new_fullname
      then Some (m.1, new_fullname) else None
  | None => None
  end.

(** The candidate has a destination and the checks of lines 145 to 157 turn
    it down. *)
Definition refused (misc_utils_idify : string → string) (destination : string)
    (mkdirs overwrite idify : bool) (fs0 : filesystem)
    (m : string * list Importer.t) : bool :=
  match destination_of misc_utils_idify destination idify fs0 m with
  | Some new_fullname => negb (destination_ok fs0 mkdirs overwrite new_fullname)
  | None => false
  end.

(** What lines 135 to 143 write for a candidate: a block for one that has a
    destination, nothing for any other. *)
Definition report_of (misc_utils_idify : string → string) (destination : string)
    (idify : bool) (fs0 : filesystem) (m : string * list Importer.t)
  : list string :=
  match m.2 with
  | [] => []
  | importer :: _ =>
      match sole_account m.2 (cache.Build m.1), files fs0 !! m.1 with
      | Some file_account, Some f =>
          match mtime_date_of fs0 f with
          | Some mtime_date =>
              report_block m.1 importer file_account mtime_date
                (date_of importer (cache.Build m.1) mtime_date).2
                (filed_as misc_utils_idify destination idify m.1 importer
                   file_account mtime_date)
          | None => []
          end
      | _, _ => []
      end
  end.

(** ** The script *)

(** The values [main] takes from the command line: [--output],
    [--dry-run] and the negation of [--no-overwrite]. *)
Record arguments := Namespace {
  output_dir : string;
  dry_run : bool;
  overwrite : bool
}.

(** How a call of [main] ends: it returns, [parser.error] leaves the program
    with a message, the [assert] of line 219 fails, or an exception of
    [file] goes through. *)
Inductive ending :=
| Returned
| ParserError (message : string)
| AssertionFailed (message : string)
| Uncaught (e : exn).

Section Script.

Variable find_imports :
  list Importer.t → list string → filesystem → list (string * list Importer.t).
Variable misc_utils_idify : string → string.

(** [main], lines 199 to 228, from the point where
    [scripts_utils.parse_arguments] has given [args], [config] and
    [downloads_directories].  [sys.stdout] is the log file of the state, with
    the text written to it so far. *)
Definition main (args : arguments) (config : list Importer.t)
    (downloads_directories : list string) : process → process * ending := λ p,
  if bool_decide (output_dir args = "") then
    (p, AssertionFailed "Internal error.")
  else if negb (os.exists_ (fs p) (output_dir args)) then
    (p, ParserError "Output directory does not exist.")
  else
    match file find_imports misc_utils_idify config downloads_directories
            (output_dir args) (dry_run args) true (overwrite args) true
            (Process (fs p) (errors p) (Some (default [] (logfile p)))) with
    | (p', Ok _) => (p', Returned)
    | (p', Raise e) => (p', Uncaught e)
    end.

End Script.

(** ** Runs of the script on small inputs *)

Module Invocation.
Import Scenario.

(** The command line [-o /docs --dry-run]. *)
Definition preview : arguments := Namespace "/docs" true true.

(** [main] on the stand-ins. *)
Definition launch (args : arguments) (config : list Importer.t)
      (downloads_directories : list string) (fs : filesystem)
    : process * ending :=
    main find_imports idify args config downloads_directories (start fs).

(** Three candidates: one without account and two of the checking account. *)
Definition batch : list (string * list Importer.t) :=
    [("invoice.csv", [unknown]); ("statement.pdf", [checking]);
     ("in1/s.pdf", [checking])].

Definition filed_s : string := "/docs/Assets/Bank/Checking/2014-06-08.s.pdf".

End Invocation.

(** * Properties *)

(** ** The library functions on examples *)

Example split_abc : Text.split "/" "/a//b" = [""; "a"; ""; "b"].
Proof. reflexivity. Qed.

Example basename_plain : Path.basename "statement.pdf" = "statement.pdf".
Proof. reflexivity. Qed.

Example basename_nested : Path.basename "/tmp/in/a.csv" = "a.csv".
Proof. reflexivity. Qed.

Example dirname_nested : Path.dirname "/tmp//in///a.csv" = "/tmp//in".
Proof. reflexivity. Qed.

Example dirname_root : Path.dirname "//a" = "//".
Proof. reflexivity. Qed.

Example join_abs : Path.join "/docs" ["/x"; "f"] = "/x/f".
Proof. reflexivity. Qed.

Example normpath_dots : Path.normpath "/docs/./A/../B//c" = "/docs/B/c".
Proof. reflexivity. Qed.

Example normpath_rel : Path.normpath "../../a/.." = "../..".
Proof. reflexivity. Qed.

Example normpath_two : Path.normpath "//a" = "//a".
Proof. reflexivity. Qed.

Example normpath_three : Path.normpath "///a/" = "/a".
Proof. reflexivity. Qed.

Example date_of_june_8 :
  datetime.isoformat <$> datetime.fromtimestamp_date (λ _, 0) 1402185600000000
  = Some "2014-06-08".
Proof. reflexivity. Qed.

Example date_before_1970 :
  datetime.fromtimestamp_date (λ _, 0) (-1)
  = Some (datetime.Date 1969 12 31).
Proof. reflexivity. Qed.

Example date_west_of_greenwich :
  datetime.fromtimestamp_date (λ _, -18000) 1402185600000000
  = Some (datetime.Date 2014 6 7).
Proof. reflexivity. Qed.

Example date_after_9999 :
  datetime.fromtimestamp_date (λ _, 0) 253402300800000000 = None.
Proof. reflexivity. Qed.

Example year_999 :
  datetime.strftime_ymd (datetime.Date 999 1 2) = "999-01-02"
  ∧ datetime.isoformat (datetime.Date 999 1 2) = "0999-01-02".
Proof. split; reflexivity. Qed.

Example dated_name : looks_dated "2014-06-08.statement.pdf" = true.
Proof. reflexivity. Qed.

Example undated_name : looks_dated "statement-2014.pdf" = false.
Proof. reflexivity. Qed.


Ltac run :=
  unfold mbind, M_bind, bind, mret, M_ret, ret, raise, get, logging.error,
    logfile_write, on_fs, os.getmtime, fromtimestamp_date in *; simpl in *.

Lemma for_each_cons {S A B} (body : B → A → M S B) x l b s :
  for_each body (x :: l) b s =
  match body b x s with
  | (s', Ok b') => for_each body l b' s'
  | (s', Raise e) => (s', Raise e)
  end.
Proof. reflexivity. Qed.

Lemma for_each_app {S A B} (body : B → A → M S B) l1 l2 b s :
  for_each body (l1 ++ l2) b s =
  match for_each body l1 b s with
  | (s', Ok b') => for_each body l2 b' s'
  | (s', Raise e) => (s', Raise e)
  end.
Proof.
  revert b s. induction l1 as [|x l1 IH]; intros b s; [done|].
  simpl. run. destruct (body b x s) as [s1 [b1|e]]; [apply IH|done].
Qed.

(** ** Text and paths *)

Module TextFacts.
Import Text.

Lemma append_cons a s t : String a s +:+ t = String a (s +:+ t).
Proof. reflexivity. Qed.

Lemma append_nil_r s : s +:+ "" = s.
Proof. induction s as [|a s IH]; [done|]. by rewrite append_cons, IH. Qed.

Lemma append_assoc s t u : (s +:+ t) +:+ u = s +:+ t +:+ u.
Proof. induction s as [|a s IH]; [done|]. by rewrite !append_cons, IH. Qed.

Lemma append_eq_nil s t : s +:+ t = "" → s = "" ∧ t = "".
Proof. destruct s; [done|]. by rewrite append_cons. Qed.

Lemma contains_app c s t :
    contains c (s +:+ t) = contains c s || contains c t.
Proof.
    induction s as [|a s IH]; [done|].
    rewrite append_cons. simpl. rewrite IH. by destruct (bool_decide (a = c)).
Qed.

Lemma split_nonempty c s : split c s ≠ [].
Proof.
    destruct s as [|a s]; [done|]. simpl.
    destruct (decide (a = c)); [done|]. by destruct (split c s).
Qed.

Lemma split_no_sep c s : contains c s = false → split c s = [s].
Proof.
    induction s as [|a s IH]; [done|]. simpl.
    intros [Ha Hs]%orb_false_iff. apply bool_decide_eq_false in Ha.
    rewrite decide_False by done. by rewrite IH.
Qed.

Lemma split_app_sep c s t :
    split c (s +:+ String c t) = split c s ++ split c t.
Proof.
    induction s as [|a s IH].
    - simpl. change ("" +:+ String c t) with (String c t). simpl.
      by rewrite decide_True.
    - rewrite append_cons. simpl. rewrite IH.
      destruct (decide (a = c)); [done|].
      pose proof (split_nonempty c s). by destruct (split c s).
Qed.

Lemma split_no_sep_parts c s : Forall (λ w, contains c w = false) (split c s).
Proof.
    induction s as [|a s IH]; simpl; [by constructor|].
    destruct (decide (a = c)); [by constructor|].
    destruct (split c s) as [|w ws]; simpl.
    - constructor; [|done]. simpl. by rewrite bool_decide_eq_false_2.
    - inversion_clear IH. constructor; [|done]. simpl.
      by rewrite bool_decide_eq_false_2.
Qed.

Lemma join_snoc d l x :
    join d (l ++ [x]) = match l with [] => x | _ => join d l +:+ d +:+ x end.
Proof.
    induction l as [|y l IH]; [done|].
    change ((y :: l) ++ [x]) with (y :: (l ++ [x])).
    destruct l as [|z l]; [done|].
    change (join d (y :: (z :: l) ++ [x]))
      with (y +:+ d +:+ join d ((z :: l) ++ [x])).
    rewrite IH.
    change (join d (y :: z :: l)) with (y +:+ d +:+ join d (z :: l)).
    by rewrite !append_assoc.
Qed.

Lemma rstrip_snoc c s : rstrip c (s +:+ String c "") = rstrip c s.
Proof.
    induction s as [|a s IH].
    - change (rstrip c (String c "") = ""). simpl. by rewrite decide_True.
    - rewrite append_cons. simpl. by rewrite IH.
Qed.

Lemma rstrip_id c s : endswith c s = false → rstrip c s = s.
Proof.
    induction s as [|a s IH]; [done|]. intros H. simpl.
    destruct s as [|b s].
    - simpl in *. apply bool_decide_eq_false in H. rewrite decide_False; tauto.
    - rewrite IH by done. rewrite decide_False; [done|]. by intros [_ ?].
Qed.

Lemma endswith_app c s t : t ≠ "" → endswith c (s +:+ t) = endswith c t.
Proof.
    intros Ht. induction s as [|a s IH]; [done|].
    rewrite append_cons. simpl. rewrite IH.
    destruct (s +:+ t) eqn:E; [|done]. by apply append_eq_nil in E as [_ ?].
Qed.

Lemma endswith_contains c s : endswith c s = true → contains c s = true.
Proof.
    induction s as [|a s IH]; [done|]. simpl. destruct s as [|b s].
    - intros ->. done.
    - intros H. rewrite IH by done. apply orb_true_r.
Qed.

Lemma all_char_app c s t : all_char c (s +:+ t) = all_char c s && all_char c t.
Proof.
    induction s as [|a s IH]; [done|]. rewrite append_cons. simpl.
    rewrite IH. by rewrite andb_assoc.
Qed.

Lemma digit_not_sep n : digit n ≠ sep.
Proof.
    unfold digit. pose proof (Nat.mod_upper_bound n 10).
    set (k := (n mod 10)%nat) in *.
    do 10 (destruct k as [|k]; [by vm_compute|]). lia.
Qed.

End TextFacts.

Module PathFacts.
Import Text TextFacts Path.

Lemma cut_no_sep f : contains sep f = false → cut f = ("", f).
Proof.
    induction f as [|a f IH]; [done|]. simpl.
    intros [Ha Hf]%orb_false_iff. apply bool_decide_eq_false in Ha.
    rewrite IH by done. by rewrite decide_False.
Qed.

Lemma cut_app_sep s f :
    contains sep f = false → cut (s +:+ String sep f) = (s +:+ String sep "", f).
Proof.
    intros Hf. induction s as [|a s IH].
    - change (cut (String sep f) = (String sep "", f)). simpl.
      by rewrite cut_no_sep.
    - rewrite !append_cons. simpl. rewrite IH.
      destruct (decide (a = sep)); [done|]. by destruct s.
Qed.

Lemma removelast_Forall {A} (P : A → Prop) l :
    Forall P l → Forall P (removelast l).
Proof.
    induction 1 as [|x l Hx Hl IH]; [done|]. simpl.
    destruct l; [constructor|]. by constructor.
Qed.

Lemma norm_step_kept_component n acc c :
    Forall kept_component acc → contains sep c = false → Forall kept_component (norm_step n acc c).
Proof.
    intros Hacc Hc. unfold norm_step.
    destruct (bool_decide (c = "")) eqn:E; [done|]. simpl.
    apply bool_decide_eq_false in E.
    repeat case_match; try done.
    - apply Forall_app. split; [done|]. by repeat constructor.
    - by apply removelast_Forall.
Qed.

Lemma norm_fold_kept_component n cs acc :
    Forall kept_component acc → Forall (λ c, contains sep c = false) cs →
    Forall kept_component (foldl (norm_step n) acc cs).
Proof.
    revert acc. induction cs as [|c cs IH]; intros acc Hacc Hcs; [done|].
    inversion_clear Hcs. simpl. apply IH; [|done]. by apply norm_step_kept_component.
Qed.

Lemma norm_comps_kept_component n p : Forall kept_component (norm_comps n (Text.split sep p)).
Proof. apply norm_fold_kept_component; [constructor|apply split_no_sep_parts]. Qed.

Lemma norm_step_plain n acc f : plain_name f → norm_step n acc f = acc ++ [f].
Proof.
    intros (_ & H1 & H2 & H3). unfold norm_step.
    by rewrite !bool_decide_eq_false_2 by done.
Qed.

Lemma norm_step_empty n acc : norm_step n acc "" = acc.
Proof. reflexivity. Qed.

Lemma plain_no_slash f : plain_name f → startswith "/" f = false.
Proof.
    intros (Hf & Hne & _). destruct f as [|a f]; [done|]. simpl in *.
    apply orb_false_iff in Hf as [Ha%bool_decide_eq_false _].
    rewrite bool_decide_eq_false_2; [done|]. by intros <-.
Qed.

(** The leading slashes are those of the first three characters. *)
Lemma initial_slashes_app_plain s f :
    s ≠ "" → startswith "/" f = false →
    initial_slashes (s +:+ f) = initial_slashes s.
Proof.
    intros Hs Hf. unfold initial_slashes.
    destruct s as [|a [|b [|c s]]]; [done|..]; rewrite ?append_cons;
      change ("" +:+ f) with f; simpl;
      destruct f as [|x f]; simpl in *;
      repeat (case_bool_decide; simpl in *; try done).
Qed.

Lemma initial_slashes_app_sep s f :
    s ≠ "" → endswith sep s = false →
    initial_slashes (s +:+ String sep f) = initial_slashes s.
Proof.
    intros Hs He. unfold initial_slashes.
    destruct s as [|a [|b [|c s]]]; [done|..]; rewrite ?append_cons;
      change ("" +:+ String sep f) with (String sep f); simpl in *;
      repeat (case_bool_decide; simplify_eq/=; try done).
Qed.

Lemma endswith_inv c s : endswith c s = true → ∃ q, s = q +:+ String c "".
Proof.
    induction s as [|a s IH]; [done|]. simpl. destruct s as [|b s].
    - intros ->%bool_decide_eq_true. by exists "".
    - intros [q ->]%IH. by exists (String a q).
Qed.

Lemma join_snoc_ne d l f : f ≠ "" → Text.join d (l ++ [f]) ≠ "".
Proof.
    intros Hf. rewrite join_snoc. destruct l; [done|].
    rewrite <-append_assoc. by intros [_ ?]%append_eq_nil.
Qed.

Lemma join_kept_component_first l : l ≠ [] → Forall kept_component l →
    all_char sep (Text.join "/" l) = false.
Proof.
    destruct l as [|x l]; [done|]. intros _ Hk. inversion_clear Hk as [|?? [Hx Hne] _].
    destruct x as [|a x]; [done|]. simpl in Hx.
    apply orb_false_iff in Hx as [Ha _].
    destruct l; simpl; rewrite ?append_cons; simpl; by rewrite Ha.
Qed.

Lemma join_kept_component_last l : l ≠ [] → Forall kept_component l →
    endswith sep (Text.join "/" l) = false ∧ Text.join "/" l ≠ "".
Proof.
    destruct l as [|x l _] using rev_ind; [done|]. intros _ Hk.
    apply Forall_app in Hk as [_ Hx']. inversion_clear Hx' as [|?? [Hx Hne] _].
    assert (endswith sep x = false) as He.
    { destruct (endswith sep x) eqn:E; [|done].
      apply endswith_contains in E. congruence. }
    rewrite join_snoc. destruct l; [done|]. split.
    - rewrite <-append_assoc. by rewrite endswith_app.
    - rewrite <-append_assoc. by intros [_ ?]%append_eq_nil.
Qed.

Lemma initial_slashes_le p : (initial_slashes p ≤ 2)%nat.
Proof. unfold initial_slashes. repeat case_match; lia. Qed.

(** Joining a plain name to a path and normalizing appends the name to the
    components that the path normalizes to. *)
Lemma normpath_join2 p f :
    plain_name f → p ≠ "" →
    normpath (join2 p f) =
      slashes_str (initial_slashes p)
      +:+ Text.join "/" (norm_comps (initial_slashes p) (Text.split sep p) ++ [f]).
Proof.
    intros Hf Hp. pose proof Hf as (Hsep & Hne & _).
    unfold join2. rewrite plain_no_slash by done.
    rewrite (bool_decide_eq_false_2 (p = "")) by done. simpl.
    assert (∀ path cs,
      path ≠ "" → initial_slashes path = initial_slashes p →
      Text.split sep path = cs ++ [f] →
      norm_comps (initial_slashes p) cs
        = norm_comps (initial_slashes p) (Text.split sep p) →
      normpath path =
        slashes_str (initial_slashes p)
        +:+ Text.join "/"
              (norm_comps (initial_slashes p) (Text.split sep p) ++ [f])) as Hgen.
    { intros path cs Hpath Hn Hsplit Hcs. unfold normpath.
      rewrite bool_decide_eq_false_2 by done. cbv zeta.
      rewrite Hn, Hsplit.
      assert (norm_comps (initial_slashes p) (cs ++ [f])
              = norm_comps (initial_slashes p) (Text.split sep p) ++ [f]) as ->.
      { rewrite <-Hcs. unfold norm_comps. rewrite foldl_app. simpl.
        by rewrite norm_step_plain. }
      rewrite bool_decide_eq_false_2; [done|].
      intros [_ E]%append_eq_nil. by apply join_snoc_ne in E. }
    destruct (endswith sep p) eqn:He.
    - apply endswith_inv in He as [q ->].
      apply (Hgen _ (Text.split sep q)).
      + intros [E _]%append_eq_nil. by apply append_eq_nil in E as [_ ?].
      + by apply initial_slashes_app_plain, plain_no_slash.
      + rewrite append_assoc, append_cons. change ("" +:+ f) with f.
        by rewrite split_app_sep, (split_no_sep _ f).
      + rewrite split_app_sep. unfold norm_comps. by rewrite foldl_app.
    - apply (Hgen _ (Text.split sep p)).
      + by intros [? _]%append_eq_nil.
      + change ("/" +:+ f) with (String sep f).
        by apply initial_slashes_app_sep.
      + change ("/" +:+ f) with (String sep f).
        by rewrite split_app_sep, (split_no_sep _ f).
      + done.
Qed.

Lemma normpath_plain f : plain_name f → normpath f = f.
Proof.
    intros Hf. pose proof Hf as (Hsep & Hne & _). unfold normpath.
    rewrite bool_decide_eq_false_2 by done. cbv zeta.
    assert (initial_slashes f = 0%nat) as ->.
    { unfold initial_slashes. by rewrite plain_no_slash. }
    rewrite split_no_sep by done. unfold norm_comps. simpl.
    rewrite norm_step_plain by done. simpl.
    change ("" +:+ f) with f. by rewrite bool_decide_eq_false_2.
Qed.

(** A plain name joined to a path lies, after normalization, directly in
    the directory the path normalizes to. *)
Lemma normpath_join2_plain p f :
    plain_name f →
    basename (normpath (join2 p f)) = f ∧
    (dirname (normpath (join2 p f)) = normpath p ∨
     normpath p = "." ∧ dirname (normpath (join2 p f)) = "").
Proof.
    intros Hf. pose proof Hf as (Hsep & Hne & _).
    destruct (decide (p = "")) as [->|Hp].
    { assert (join2 "" f = f) as ->.
      { unfold join2. by rewrite plain_no_slash. }
      rewrite normpath_plain by done. unfold basename, dirname.
      rewrite cut_no_sep by done. split; [done|]. by right. }
    rewrite normpath_join2 by done.
    unfold normpath. rewrite bool_decide_eq_false_2 by done. cbv zeta.
    pose proof (norm_comps_kept_component (initial_slashes p) p) as Hk.
    pose proof (initial_slashes_le p) as Hle.
    set (n := initial_slashes p) in *.
    set (cs := norm_comps n (Text.split sep p)) in *.
    rewrite join_snoc. destruct (decide (cs = [])) as [->|Hcs].
    - simpl. unfold basename, dirname.
      destruct n as [|[|[|n]]]; [| | |lia].
      + change (slashes_str 0 +:+ f) with f. rewrite cut_no_sep by done.
        split; [done|]. by right.
      + change (slashes_str 1 +:+ f) with ("" +:+ String sep f).
        rewrite cut_app_sep by done. split; [done|]. by left.
      + change (slashes_str 2 +:+ f) with ("/" +:+ String sep f).
        rewrite cut_app_sep by done. split; [done|]. by left.
    - destruct (join_kept_component_last cs Hcs Hk) as [He Hj].
      pose proof (join_kept_component_first cs Hcs Hk) as Ha.
      assert (match cs with [] => f | _ :: _ => Text.join "/" cs +:+ "/" +:+ f end
              = Text.join "/" cs +:+ String sep f) as -> by (by destruct cs).
      rewrite <-append_assoc. unfold basename, dirname.
      rewrite cut_app_sep by done. simpl. split; [done|]. left.
      rewrite !all_char_app, Ha, andb_false_r. simpl.
      rewrite rstrip_snoc, rstrip_id by (by rewrite endswith_app).
      rewrite bool_decide_eq_false_2; [done|]. by intros [_ ?]%append_eq_nil.
Qed.

End PathFacts.

(** ** The accounts of a file *)

Lemma elem_of_file_accounts importers file o :
  o ∈ file_accounts_of importers file ↔
  ∃ a, o = Some a ∧ a ∈ declared_accounts importers file.
Proof.
  unfold file_accounts_of, declared_accounts.
  rewrite elem_of_difference, elem_of_list_to_set, list_elem_of_fmap,
    not_elem_of_singleton.
  split.
  - intros [(imp & -> & Himp) Hne].
    destruct (Importer.file_account imp file) as [a|] eqn:E; [|done].
    exists a. split; [done|]. apply list_elem_of_omap. eauto.
  - intros (a & -> & (imp & Himp & E)%list_elem_of_omap).
    split; [|done]. exists imp. by rewrite E.
Qed.

Lemma file_accounts_empty importers file :
  declared_accounts importers file = [] →
  file_accounts_of importers file = ∅.
Proof.
  intros E. apply set_eq. intros o. rewrite elem_of_file_accounts, E.
  split; [intros (a & _ & Ha); by apply elem_of_nil in Ha | set_solver].
Qed.

Lemma file_accounts_nonempty importers file a :
  a ∈ declared_accounts importers file →
  file_accounts_of importers file ≠ ∅.
Proof.
  intros Ha E. assert (Some a ∈ file_accounts_of importers file) as H.
  { apply elem_of_file_accounts. eauto. }
  rewrite E in H. set_solver.
Qed.

Lemma file_accounts_singleton importers file a :
  a ∈ declared_accounts importers file →
  (∀ b, b ∈ declared_accounts importers file → b = a) →
  file_accounts_of importers file = {[Some a]}.
Proof.
  intros Ha Hall. apply set_eq. intros o.
  rewrite elem_of_file_accounts, elem_of_singleton. split.
  - intros (b & -> & Hb). by rewrite (Hall b Hb).
  - intros ->. eauto.
Qed.

Lemma file_accounts_many importers file a b :
  a ∈ declared_accounts importers file →
  b ∈ declared_accounts importers file →
  a ≠ b →
  (1 < size (file_accounts_of importers file))%nat.
Proof.
  intros Ha Hb Hne.
  assert ({[Some a; Some b]} ⊆ file_accounts_of importers file) as Hsub.
  { intros o [->%elem_of_singleton | ->%elem_of_singleton]%elem_of_union;
      apply elem_of_file_accounts; eauto. }
  apply subseteq_size in Hsub.
  rewrite size_union, !size_singleton in Hsub; [lia|].
  intros o ->%elem_of_singleton [=]%elem_of_singleton. done.
Qed.

Lemma reported_accounts importers file a :
  a ∈ omap id (elements (file_accounts_of importers file)) ↔
  a ∈ declared_accounts importers file.
Proof.
  rewrite list_elem_of_omap. split.
  - intros (o & Ho%elem_of_elements & E). simpl in E. subst o.
    apply elem_of_file_accounts in Ho as (b & [= ->] & Hb). done.
  - intros Ha. exists (Some a). split; [|done].
    apply elem_of_elements, elem_of_file_accounts. eauto.
Qed.

Section Resolution.
Variable idf : string → string.

Lemma file_body_resolved d mk ow idify l filename importer rest a f mtime_date p :
  file_accounts_of (importer :: rest) (cache.Build filename) = {[Some a]} →
  files (fs p) !! filename = Some f →
  mtime_date_of (fs p) f = Some mtime_date →
  file_body idf d mk ow idify l (filename, importer :: rest) p =
    let file := cache.Build filename in
    let new_fullname :=
      new_fullname_of d a
        (datetime.strftime_ymd (resolved_date importer file mtime_date) +:+ "."
         +:+ clean_basename_of idf importer file idify) in
    let errs := errors p ++ dated_warning importer file in
    let out :=
      (λ o, o ++ report_block filename importer a mtime_date
                   (date_of importer file mtime_date).2 new_fullname)
        <$> logfile p in
    if negb (os.exists_ (fs p) (Path.dirname new_fullname)) && negb mk then
      (Process (fs p)
         (errs ++ ["Destination directory '" +:+ Path.dirname new_fullname
                   +:+ "' does not exist."]) out,
       Ok (Locals (jobs l) true))
    else if negb ow && os.exists_ (fs p) new_fullname then
      (Process (fs p)
         (errs ++ ["Destination file '" +:+ new_fullname
                   +:+ "' already exists."]) out,
       Ok (Locals (jobs l) true))
    else
      (Process (fs p) errs out,
       Ok (Locals (jobs l ++ [(filename, new_fullname)]) (has_errors l))).
Proof.
  intros HS Hf Hd. unfold file_body. rewrite HS.
  rewrite bool_decide_eq_false_2 by (apply non_empty_singleton_L).
  rewrite size_singleton, bool_decide_eq_false_2 by lia.
  rewrite elements_singleton.
  unfold resolved_date, date_of, dated_warning, report_block.
  destruct p as [fs0 errs0 out0]. unfold mtime_date_of in Hd.
  run. rewrite Hf. simpl. rewrite Hd. simpl.
  destruct (Importer.file_date importer _) as [dt|]; simpl;
  destruct (Importer.file_name importer _) as [n|]; simpl;
  try destruct (looks_dated n); simpl;
  destruct out0 as [out0|]; simpl;
  repeat (case_match; simpl; try done);
  rewrite ?app_nil_r, <-?app_assoc; simpl; done.
Qed.

Lemma file_body_resolved' d mk ow idify l filename importer rest a f mtime_date p :
  file_accounts_of (importer :: rest) (cache.Build filename) = {[Some a]} →
  files (fs p) !! filename = Some f →
  mtime_date_of (fs p) f = Some mtime_date →
  ∃ p',
    file_body idf d mk ow idify l (filename, importer :: rest) p =
      (p', Ok (if destination_ok (fs p) mk ow
                    (filed_as idf d idify filename importer a mtime_date)
               then Locals (jobs l ++ [(filename,
                                        filed_as idf d idify filename importer a
                                          mtime_date)])
                      (has_errors l)
               else Locals (jobs l) true)) ∧
    fs p' = fs p ∧
    logfile p' =
      (λ o, o ++ report_block filename importer a mtime_date
                   (date_of importer (cache.Build filename) mtime_date).2
                   (filed_as idf d idify filename importer a mtime_date))
        <$> logfile p.
Proof.
  intros HS Hf Hd.
  rewrite (file_body_resolved d mk ow idify l filename importer rest a f
             mtime_date p) by done.
  unfold destination_ok, filed_as. cbv zeta.
  repeat (case_match; simplify_eq/=; try done); eauto.
Qed.

(** A file whose account is known and whose day of last modification is not
    a date of Python stops the run at line 97. *)
Lemma file_body_out_of_range d mk ow idify l filename importer rest a f p :
  file_accounts_of (importer :: rest) (cache.Build filename) = {[Some a]} →
  files (fs p) !! filename = Some f →
  mtime_date_of (fs p) f = None →
  file_body idf d mk ow idify l (filename, importer :: rest) p
  = (p, Raise ValueError).
Proof.
  intros HS Hf Hd. unfold file_body. rewrite HS.
  rewrite bool_decide_eq_false_2 by (apply non_empty_singleton_L).
  rewrite size_singleton, bool_decide_eq_false_2 by lia.
  rewrite elements_singleton.
  destruct p as [fs0 errs0 out0]. unfold mtime_date_of in Hd.
  run. rewrite Hf. simpl. by rewrite Hd.
Qed.

Lemma file_body_fs d mk ow idify l m p p' r :
  file_body idf d mk ow idify l m p = (p', r) → fs p' = fs p.
Proof.
  destruct m as [filename [|importer rest]]; unfold file_body.
  - intros [= <- <-]. done.
  - run. intros H.
    repeat (case_match; simplify_eq/=; try done).
Qed.

Lemma resolve_loop_fs d mk ow idify ms l p p' r :
  for_each (file_body idf d mk ow idify) ms l p = (p', r) → fs p' = fs p.
Proof.
  revert l p. induction ms as [|m ms IH]; intros l p.
  { by intros [= <- <-]. }
  rewrite for_each_cons. destruct (file_body idf d mk ow idify l m p) as [p1 [l1|e]] eqn:E.
  - intros H%IH. apply file_body_fs in E. congruence.
  - intros [= <- <-]. by eapply file_body_fs.
Qed.

(** A round either leaves the jobs as they are or adds the job of its file. *)
Lemma file_body_jobs d mk ow idify l filename importers p p' l' :
  file_body idf d mk ow idify l (filename, importers) p = (p', Ok l') →
  jobs l' = jobs l ∨
  ∃ j, jobs l' = jobs l ++ [j] ∧ j.1 = filename ∧
       job_resolved idf [(filename, importers)] d mk ow idify (fs p) j.
Proof.
  destruct importers as [|importer rest].
  { intros [= <- <-]. by left. }
  intros H.
  destruct (decide (file_accounts_of (importer :: rest) (cache.Build filename) = ∅))
    as [HE|HE].
  { unfold file_body in H. rewrite bool_decide_eq_true_2 in H by done.
    run. simplify_eq. by left. }
  destruct (decide (1 < size (file_accounts_of (importer :: rest)
                                (cache.Build filename)))%nat) as [HS|HS].
  { unfold file_body in H. rewrite bool_decide_eq_false_2 in H by done.
    rewrite bool_decide_eq_true_2 in H by done.
    run. simplify_eq. by left. }
  assert (size (file_accounts_of (importer :: rest) (cache.Build filename)) = 1%nat)
    as [o Ho]%size_1_elem_of.
  { assert (size (file_accounts_of (importer :: rest) (cache.Build filename)) ≠ 0%nat)
      by (rewrite size_non_empty_iff; by intros ?%leibniz_equiv).
    lia. }
  apply leibniz_equiv in Ho.
  assert (o ∈ file_accounts_of (importer :: rest) (cache.Build filename))
    as (a & -> & _)%elem_of_file_accounts by (rewrite Ho; set_solver).
  destruct (files (fs p) !! filename) as [f|] eqn:Hf.
  - destruct (mtime_date_of (fs p) f) as [mtime_date|] eqn:Hd.
    + destruct (file_body_resolved' d mk ow idify l filename importer rest a f
                  mtime_date p Ho Hf Hd) as (p1 & E & _ & _).
      rewrite E in H. simplify_eq.
      destruct (destination_ok _ _ _ _) eqn:Hok; [|by left].
      right. eexists (_, _). split; [done|]. split; [done|].
      exists importer, rest, a, f, mtime_date. simpl.
      split; [apply list_elem_of_here|done].
    + by rewrite (file_body_out_of_range d mk ow idify l filename importer rest
                    a f p Ho Hf Hd) in H.
  - unfold file_body in H. rewrite bool_decide_eq_false_2 in H by done.
    rewrite bool_decide_eq_false_2 in H by done.
    rewrite Ho, elements_singleton in H. run. rewrite Hf in H. done.
Qed.

Lemma job_resolved_mono ms ms' d mk ow idify fs0 j :
  ms ⊆ ms' → job_resolved idf ms d mk ow idify fs0 j →
  job_resolved idf ms' d mk ow idify fs0 j.
Proof.
  intros Hsub (importer & rest & a & f & md & Hin & H).
  exists importer, rest, a, f, md.
  split; [apply Hsub, Hin|exact H].
Qed.

Lemma resolve_loop_jobs d mk ow idify ms l p p' l' :
  for_each (file_body idf d mk ow idify) ms l p = (p', Ok l') →
  ∃ js, jobs l' = jobs l ++ js ∧
        Forall (job_resolved idf ms d mk ow idify (fs p)) js.
Proof.
  revert l p. induction ms as [|[filename importers] ms IH]; intros l p.
  { intros [= <- <-]. exists []. by rewrite app_nil_r. }
  rewrite for_each_cons. destruct (file_body idf d mk ow idify l (filename, importers) p)
    as [p1 [l1|e]] eqn:E; [|done].
  intros (js & Hjs & Hall)%IH.
  pose proof (file_body_fs _ _ _ _ _ _ _ _ _ E) as Hfs. rewrite Hfs in Hall.
  apply file_body_jobs in E as [E|(j & E & _ & Hj)].
  - exists js. split; [congruence|].
    eapply Forall_impl; [done|]. intros j. apply job_resolved_mono.
    intros m Hm. by apply list_elem_of_further.
  - exists (j :: js). split; [rewrite Hjs, E, <-app_assoc; done|].
    constructor.
    + eapply job_resolved_mono; [|done].
      intros m ->%list_elem_of_singleton. apply list_elem_of_here.
    + eapply Forall_impl; [done|]. intros j'. apply job_resolved_mono.
      intros m Hm. by apply list_elem_of_further.
Qed.

Lemma resolve_jobs ms d mk ow idify p p' l' :
  resolve idf ms d mk ow idify p = (p', Ok l') →
  fs p' = fs p ∧ Forall (job_resolved idf ms d mk ow idify (fs p)) (jobs l').
Proof.
  unfold resolve. intros H. split; [by eapply resolve_loop_fs|].
  apply resolve_loop_jobs in H as (js & -> & H). done.
Qed.

End Resolution.

(** ** Moving a file *)

Lemma mkdir_files p fs fs' r :
  os.mkdir p fs = (fs', r) → files fs' = files fs ∧ clock fs' = clock fs.
Proof.
  unfold os.mkdir. intros H.
  repeat (case_match; simplify_eq/=; try done).
Qed.

Lemma makedirs_rec_files n name fs fs' r :
  os.makedirs_rec n name fs = (fs', r) →
  files fs' = files fs ∧ clock fs' = clock fs.
Proof.
  revert name fs fs' r. induction n as [|n IH]; intros name fs fs' r; simpl.
  { by intros [= <- <-]. }
  unfold Path.split.
  set (ht := if bool_decide (Path.basename name = "")
             then (Path.dirname (Path.dirname name),
                   Path.basename (Path.dirname name))
             else (Path.dirname name, Path.basename name)).
  destruct ht as [head tail].
  destruct (negb (bool_decide (head = "")) && negb (bool_decide (tail = ""))
            && negb (os.exists_ fs head)).
  - destruct (os.makedirs_rec n head fs) as [fs1 r1] eqn:E1.
    apply IH in E1 as [E1 E2]. intros H.
    destruct r1 as [[]|e]; [|destruct e]; try (by simplify_eq/=);
      (destruct (bool_decide (tail = ".")); [by simplify_eq/=|];
       apply mkdir_files in H as [? ?]; split; congruence).
  - apply mkdir_files.
Qed.

Lemma copyfile_ok src dst fs fs' :
  shutil.copyfile src dst fs = (fs', Ok tt) →
  ∃ f, files fs !! src = Some f ∧ src ≠ dst ∧
       files fs' = <[dst := Inode (contents f) (clock fs)]> (files fs).
Proof.
  unfold shutil.copyfile. intros H.
  destruct (files fs !! src) as [f|] eqn:E; [|done]. exists f.
  repeat (case_bool_decide || case_match; simplify_eq/=; try done).
Qed.

Lemma copyfile_raise src dst fs fs' e :
  shutil.copyfile src dst fs = (fs', Raise e) →
  files fs' !! src = files fs !! src.
Proof.
  unfold shutil.copyfile. intros H.
  destruct (files fs !! src) as [f|] eqn:E; [|by simplify_eq].
  repeat (case_bool_decide || case_match; simplify_eq/=; try done).
  by rewrite lookup_insert_ne.
Qed.

Lemma remove_ok src fs f :
  files fs !! src = Some f →
  ∃ fs', os.remove src fs = (fs', Ok tt) ∧ files fs' = delete src (files fs).
Proof. intros E. unfold os.remove. rewrite E. eauto. Qed.

(** The step of lines 181 to 188 of [move_xdev_file]. *)
Lemma move_xdev_file_cases src dst mk fs fs' r :
  move_xdev_file src dst mk fs = (fs', r) →
  (∃ e, r = Raise e ∧ files fs' = files fs) ∨
  ∃ fs1, files fs1 = files fs ∧ clock fs1 = clock fs ∧
    (shutil.copyfile src dst;; os.remove src) fs1 = (fs', r).
Proof.
  unfold move_xdev_file. run.
  destruct mk.
  - destruct (negb (os.exists_ fs (Path.dirname dst))).
    + destruct (os.makedirs (Path.dirname dst) fs) as [fs1 r1] eqn:E1.
      apply makedirs_rec_files in E1 as [Hf Hc].
      destruct r1 as [[]|e].
      * intros H. right. exists fs1. done.
      * intros [= <- <-]. left. eauto.
    + intros H. right. exists fs. done.
  - destruct (negb (os.exists_ fs (Path.dirname dst))).
    + intros [= <- <-]. left. eauto.
    + intros H. right. exists fs. done.
Qed.

(** Claim C3.  A move is a copy followed by a delete.  When
    [move_xdev_file] returns, the destination holds the bytes of the source
    and the source is gone.  When it raises, as it does when the copy fails,
    the source is as it was before the move, and the loop over the jobs
    stops with that exception: the jobs queued after the failing one are not
    attempted. *)
Theorem copy_then_delete pre src dst post mk fs0 fs fs' r :
  move_jobs pre mk fs0 = (fs, Ok tt) →
  move_xdev_file src dst mk fs = (fs', r) →
  match r with
  | Ok _ =>
      ∃ f, files fs !! src = Some f ∧
           files fs' !! dst = Some (Inode (contents f) (clock fs)) ∧
           files fs' !! src = None
  | Raise e =>
      files fs' !! src = files fs !! src ∧
      move_jobs (pre ++ (src, dst) :: post) mk fs0 = (fs', Raise e)
  end.
Proof.
  intros Hpre Hmove. destruct r as [[]|e].
  - apply move_xdev_file_cases in Hmove as [(e & [=] & _)|(fs1 & Hf & Hc & H)].
    run. destruct (shutil.copyfile src dst fs1) as [fs2 [[]|e]] eqn:Hcopy; [|done].
    apply copyfile_ok in Hcopy as (f & Hsrc & Hne & Hfiles).
    assert (files fs2 !! src = Some f) as Hsrc2.
    { rewrite Hfiles, lookup_insert_ne by done. done. }
    destruct (remove_ok src fs2 f Hsrc2) as (fs3 & Hrm & Hdel).
    rewrite Hrm in H. simplify_eq. exists f. rewrite <-Hf, <-Hc, Hdel.
    split; [done|]. split.
    + rewrite lookup_delete_ne, Hfiles, lookup_insert_eq by done. done.
    + apply lookup_delete_eq.
  - split.
    + apply move_xdev_file_cases in Hmove
        as [(e' & _ & ->)|(fs1 & Hf & Hc & H)]; [done|].
      run. rewrite <-Hf.
      destruct (shutil.copyfile src dst fs1) as [fs2 [[]|e']] eqn:Hcopy.
      * apply copyfile_ok in Hcopy as (f & Hsrc & Hne & Hfiles).
        assert (files fs2 !! src = Some f) as Hsrc2.
        { rewrite Hfiles, lookup_insert_ne by done. done. }
        destruct (remove_ok src fs2 f Hsrc2) as (fs3 & Hrm & Hdel).
        rewrite Hrm in H. done.
      * simplify_eq. by eapply copyfile_raise.
    + unfold move_jobs in *. rewrite for_each_app, Hpre. simpl. run.
      by rewrite Hmove.
Qed.

(** ** The gate before the move phase *)

Lemma file_matches_gate idf ms d dry mk ow idify p p1 l :
  resolve idf ms d mk ow idify p = (p1, Ok l) →
  dry || has_errors l = true →
  file_matches idf ms d dry mk ow idify p = (p1, Ok None) ∧ fs p1 = fs p.
Proof.
  intros H Hg. split; [|by eapply resolve_loop_fs].
  unfold file_matches. run. by rewrite H, Hg.
Qed.

Lemma file_matches_moves idf ms d dry mk ow idify p p1 l :
  resolve idf ms d mk ow idify p = (p1, Ok l) →
  dry || has_errors l = false →
  file_matches idf ms d dry mk ow idify p =
    match move_jobs (jobs l) mk (fs p) with
    | (fs', Ok _) => (Process fs' (errors p1) (logfile p1), Ok (Some (jobs l)))
    | (fs', Raise e) => (Process fs' (errors p1) (logfile p1), Raise e)
    end.
Proof.
  intros H Hg. unfold file_matches. run. rewrite H, Hg.
  rewrite (resolve_loop_fs _ _ _ _ _ _ _ _ _ _ H).
  by destruct (move_jobs (jobs l) mk (fs p)) as [fs' [[]|e]].
Qed.

(** Claim C9.  A candidate file that no importer matches leaves the round of
    the loop without a job, an error or a line of output, and the rest of
    the run, the test before the move phase included, is the same as if the
    file had not been among the candidates. *)
Theorem unmatched_file_skipped idf pre filename post d dry mk ow idify l p :
  file_body idf d mk ow idify l (filename, []) p = (p, Ok l) ∧
  resolve idf (pre ++ (filename, []) :: post) d mk ow idify p
    = resolve idf (pre ++ post) d mk ow idify p ∧
  file_matches idf (pre ++ (filename, []) :: post) d dry mk ow idify p
    = file_matches idf (pre ++ post) d dry mk ow idify p.
Proof.
  assert (resolve idf (pre ++ (filename, []) :: post) d mk ow idify p
          = resolve idf (pre ++ post) d mk ow idify p) as E.
  { unfold resolve. rewrite !for_each_app.
    destruct (for_each _ pre _ p) as [p1 [l1|e]]; [|done].
    by rewrite for_each_cons. }
  split; [done|]. split; [done|].
  unfold file_matches. run. by rewrite E.
Qed.

(** Claim C2.  For a file with at least one importer, the accounts are the
    answers of all its importers other than [None].  With none, the round
    logs "No account provided" and adds no job.  With two different ones, it
    logs "Ambiguous accounts" with every one of the accounts and adds no job.
    With exactly one, the file being there with a day of last modification,
    the round reports that account in the log file and, unless the checks of
    lines 145 to 157 turn the destination down, adds exactly the job that
    files the file under that account; it sets [has_errors] and adds no job
    when they do.  The file system is as it was. *)
Theorem account_resolution idf d mk ow idify l filename importer rest p :
  let importers := importer :: rest in
  let file := cache.Build filename in
  let declared := declared_accounts importers file in
  (declared = [] →
   file_body idf d mk ow idify l (filename, importers) p =
     (Process (fs p)
        (errors p ++ ["No account provided by importers: "
                      +:+ Text.join ", " (Importer.name <$> importers)])
        (logfile p), Ok l)) ∧
  (∀ a b, a ∈ declared → b ∈ declared → a ≠ b →
   ∃ reported,
     file_body idf d mk ow idify l (filename, importers) p =
       (Process (fs p)
          (errors p ++ ["Ambiguous accounts from many importers: "
                        +:+ Text.join ", " reported])
          (logfile p), Ok l) ∧
     ∀ c, c ∈ reported ↔ c ∈ declared) ∧
  (∀ a f mtime_date, a ∈ declared → (∀ b, b ∈ declared → b = a) →
   files (fs p) !! filename = Some f →
   mtime_date_of (fs p) f = Some mtime_date →
   let new_fullname := filed_as idf d idify filename importer a mtime_date in
   ∃ p',
     file_body idf d mk ow idify l (filename, importers) p =
       (p', Ok (if destination_ok (fs p) mk ow new_fullname
                then Locals (jobs l ++ [(filename, new_fullname)]) (has_errors l)
                else Locals (jobs l) true)) ∧
     fs p' = fs p ∧
     logfile p' =
       (λ out, out ++ report_block filename importer a mtime_date
                        (date_of importer file mtime_date).2 new_fullname)
         <$> logfile p).
Proof.
  intros importers file declared. split; [|split].
  - intros E%file_accounts_empty. unfold file_body. fold importers file.
    rewrite bool_decide_eq_true_2 by done. done.
  - intros a b Ha Hb Hne.
    exists (omap id (elements (file_accounts_of importers file))).
    split; [|intros c; apply reported_accounts].
    unfold file_body. fold importers file.
    rewrite bool_decide_eq_false_2 by (exact (file_accounts_nonempty _ _ a Ha)).
    rewrite bool_decide_eq_true_2 by (exact (file_accounts_many _ _ a b Ha Hb Hne)). done.
  - intros a f mtime_date Ha Hall Hf Hd new_fullname.
    destruct (file_body_resolved' idf d mk ow idify l filename importer rest a f
                mtime_date p) as (p' & E & Hfs & Hlog);
      [by apply file_accounts_singleton|done|done|].
    exists p'. split; [exact E|]. split; [exact Hfs|]. exact Hlog.
Qed.

(** Claim C4.  For a file matched by one importer that gives an account, the
    file being there with a day of last modification, the file is filed
    under that account, and the date put before its name is the one the
    importer extracts when there is one and the local day the file was last
    modified otherwise. *)
Theorem single_importer_account_and_date idf d mk ow idify l filename
    importer a f mtime_date p :
  Importer.file_account importer (cache.Build filename) = Some a →
  files (fs p) !! filename = Some f →
  datetime.fromtimestamp_date (utcoffset (fs p)) (mtime f) = Some mtime_date →
  let file := cache.Build filename in
  let date :=
    match Importer.file_date importer file with
    | Some extracted => extracted
    | None => mtime_date
    end in
  let new_fullname :=
    new_fullname_of d a
      (datetime.strftime_ymd date +:+ "."
       +:+ clean_basename_of idf importer file idify) in
  ∃ p',
    file_body idf d mk ow idify l (filename, [importer]) p =
      (p', Ok (if destination_ok (fs p) mk ow new_fullname
               then Locals (jobs l ++ [(filename, new_fullname)]) (has_errors l)
               else Locals (jobs l) true)).
Proof.
  intros Ha Hf Hd file date new_fullname.
  destruct (file_body_resolved' idf d mk ow idify l filename importer [] a f
              mtime_date p) as (p' & E & Hrest); [|done|done|].
  { apply file_accounts_singleton; unfold declared_accounts; simpl;
      rewrite Ha; [apply list_elem_of_here|].
    by intros b ->%list_elem_of_singleton. }
  exists p'. rewrite E. unfold filed_as, resolved_date. fold file.
  subst date new_fullname. by destruct (Importer.file_date importer file).
Qed.

(** The destination of every job of a batch. *)
Lemma job_destination idf ms d mk ow idify p p' l' :
  resolve idf ms d mk ow idify p = (p', Ok l') →
  ∀ src dst, (src, dst) ∈ jobs l' →
    ∃ importer rest a f mtime_date,
      (src, importer :: rest) ∈ ms ∧
      file_accounts_of (importer :: rest) (cache.Build src) = {[Some a]} ∧
      files (fs p) !! src = Some f ∧
      mtime_date_of (fs p) f = Some mtime_date ∧
      dst = Path.normpath
              (Path.join d
                 [Text.replace ":" "/" a;
                  datetime.strftime_ymd
                    (resolved_date importer (cache.Build src) mtime_date)
                  +:+ "." +:+ clean_basename_of idf importer (cache.Build src) idify]).
Proof.
  intros [_ Hall]%resolve_jobs src dst Hin.
  rewrite Forall_forall in Hall.
  destruct (Hall _ Hin)
    as (importer & rest & a & f & md & H1 & H2 & H3 & H4 & H5 & _).
  exists importer, rest, a, f, md. done.
Qed.

(** Property X18.  The destination of every job of a batch was checked
    against the file system the run started in, not against the other jobs:
    when overwriting is off no file or directory was there, and when
    directories are not made its directory was there. *)
Theorem destinations_checked_on_the_file_system idf ms d mk ow idify p p' l' :
  resolve idf ms d mk ow idify p = (p', Ok l') →
  ∀ src dst, (src, dst) ∈ jobs l' →
    (ow = false → os.exists_ (fs p) dst = false) ∧
    (mk = false → os.exists_ (fs p) (Path.dirname dst) = true).
Proof.
  intros [_ Hall]%resolve_jobs src dst Hin.
  rewrite Forall_forall in Hall.
  destruct (Hall _ Hin)
    as (importer & rest & a & f & md & _ & _ & _ & _ & _ & Hok).
  unfold destination_ok in Hok. simpl in Hok.
  apply andb_true_iff in Hok as [H1%negb_true_iff H2%negb_true_iff].
  split; intros ->; simpl in *.
  - done.
  - rewrite andb_true_r in H1. by apply negb_false_iff in H1.
Qed.

(** ** Where a file is filed *)

Section Destination.
Import Text TextFacts Path PathFacts.

Lemma cut_tail_no_sep p : contains sep (cut p).2 = false.
Proof.
  induction p as [|a p IH]; [done|]. simpl.
  destruct (cut p) as [h t]. simpl in IH.
  destruct (decide (a = sep)); [done|].
  destruct h; simpl; [|done]. by rewrite IH, bool_decide_eq_false_2.
Qed.

Lemma basename_no_sep p : contains sep (basename p) = false.
Proof. apply cut_tail_no_sep. Qed.

Lemma contains_cons c a s :
  contains c (String a s) = bool_decide (a = c) || contains c s.
Proof. reflexivity. Qed.

Lemma digits2_no_sep n : contains sep (datetime.digits2 n) = false.
Proof.
  unfold datetime.digits2. cbv zeta. rewrite !contains_cons.
  rewrite !bool_decide_eq_false_2 by apply digit_not_sep. reflexivity.
Qed.

Lemma digits4_no_sep n : contains sep (datetime.digits4 n) = false.
Proof.
  unfold datetime.digits4. cbv zeta. rewrite !contains_cons.
  rewrite !bool_decide_eq_false_2 by apply digit_not_sep. reflexivity.
Qed.

Lemma isoformat_no_sep d : contains sep (datetime.isoformat d) = false.
Proof.
  unfold datetime.isoformat.
  rewrite !contains_app, digits4_no_sep, !digits2_no_sep. reflexivity.
Qed.

Lemma is_digit_digit n : is_digit (digit n) = true.
Proof.
  unfold digit. pose proof (Nat.mod_upper_bound n 10).
  set (k := (n mod 10)%nat) in *.
  do 10 (destruct k as [|k]; [by vm_compute|]). lia.
Qed.

Lemma strftime_Y_no_sep y : contains sep (datetime.strftime_Y y) = false.
Proof.
  unfold datetime.strftime_Y. cbv zeta.
  destruct (Z.to_nat y <? 10)%nat; [|destruct (Z.to_nat y <? 100)%nat;
    [|destruct (Z.to_nat y <? 1000)%nat; [|apply digits4_no_sep]]];
    rewrite !contains_cons;
    rewrite !bool_decide_eq_false_2 by apply digit_not_sep; reflexivity.
Qed.

Lemma strftime_Y_head y :
  ∃ k s, datetime.strftime_Y y = String (digit k) s.
Proof.
  unfold datetime.strftime_Y, datetime.digits4. cbv zeta.
  destruct (Z.to_nat y <? 10)%nat; [|destruct (Z.to_nat y <? 100)%nat;
    [|destruct (Z.to_nat y <? 1000)%nat]]; eauto.
Qed.



Lemma strftime_ymd_no_sep d : contains sep (datetime.strftime_ymd d) = false.
Proof.
  unfold datetime.strftime_ymd.
  rewrite !contains_app, strftime_Y_no_sep, !digits2_no_sep. reflexivity.
Qed.

Lemma dated_name_plain d c :
  contains sep c = false → plain_name (datetime.strftime_ymd d +:+ "." +:+ c).
Proof.
  intros Hc. split.
  - rewrite !contains_app, strftime_ymd_no_sep, Hc. reflexivity.
  - unfold datetime.strftime_ymd.
    destruct (strftime_Y_head (datetime.year d)) as (k & s & ->).
    rewrite !append_cons.
    assert (digit k ≠ "."%char) as Hk.
    { intros E. pose proof (is_digit_digit k) as H. by rewrite E in H. }
    repeat split; intros [=]; done.
Qed.

Lemma replace_no_sep a b c s :
  b ≠ c → contains c s = false → contains c (replace a b s) = false.
Proof.
  intros Hb. induction s as [|x s IH]; [done|]. simpl.
  intros [Hx Hs]%orb_false_iff. rewrite IH by done.
  apply bool_decide_eq_false in Hx.
  destruct (decide (x = a)); by rewrite bool_decide_eq_false_2.
Qed.

Lemma clean_basename_no_sep idf importer file idify :
  (idify = true → ∀ s, contains sep s = false → contains sep (idf s) = false) →
  contains sep (clean_basename_of idf importer file idify) = false.
Proof.
  intros Hidf. unfold clean_basename_of.
  destruct idify; [apply Hidf; [done|]|]; apply basename_no_sep.
Qed.

(** Claim C10.  Of the name an importer gives a file, or of the file's own
    name, only the last component reaches the destination: the cleaned name
    has no separator, the last component of the destination is the date, a
    dot and the cleaned name, and the directory of the destination is the
    directory of the account (written as the empty path where that
    directory is [.]).  [misc_utils.idify], when it is applied, is taken to
    bring no separator into a name that has none. *)
Theorem destination_directly_in_account_directory idf ms d mk ow idify p p' l' :
  (idify = true →
   ∀ s, Text.contains Text.sep s = false →
        Text.contains Text.sep (idf s) = false) →
  resolve idf ms d mk ow idify p = (p', Ok l') →
  ∀ src dst, (src, dst) ∈ jobs l' →
    ∃ importer rest a f mtime_date,
      (src, importer :: rest) ∈ ms ∧
      file_accounts_of (importer :: rest) (cache.Build src) = {[Some a]} ∧
      files (fs p) !! src = Some f ∧
      mtime_date_of (fs p) f = Some mtime_date ∧
      let clean_basename := clean_basename_of idf importer (cache.Build src) idify in
      let new_filename :=
        datetime.strftime_ymd
          (resolved_date importer (cache.Build src) mtime_date)
        +:+ "." +:+ clean_basename in
      Text.contains Text.sep clean_basename = false ∧
      Path.basename dst = new_filename ∧
      (Path.dirname dst = account_directory d a ∨
       account_directory d a = "." ∧ Path.dirname dst = "").
Proof.
  intros Hidf Hres src dst Hin.
  destruct (job_destination _ _ _ _ _ _ _ _ _ Hres _ _ Hin)
    as (importer & rest & a & f & md & H1 & H2 & H3 & H4 & ->).
  exists importer, rest, a, f, md.
  split; [done|]. split; [done|]. split; [done|]. split; [done|].
  cbv zeta.
  pose proof (clean_basename_no_sep idf importer (cache.Build src) idify Hidf) as Hc.
  split; [done|].
  apply (normpath_join2_plain (Path.join2 d (Text.replace ":" "/" a))).
  by apply dated_name_plain.
Qed.


End Destination.

(** ** The program on small inputs *)

Section Runs.
Import Scenario.

(** Claim C1, which the code breaks.  [invoice.csv] is claimed by an importer
    that gives no account, an error is logged for it, and [statement.pdf] is
    moved all the same: lines 78 to 86 leave [has_errors] as it is. *)
Theorem account_error_does_not_stop_the_moves :
  let out := run [unknown; checking] ["invoice.csv"; "statement.pdf"] "/docs"
               false true false false downloads in
  errors out.1 = ["No account provided by importers: B"] ∧
  out.2 = Ok (Some [("statement.pdf", filed_statement)]) ∧
  files (fs out.1) !! "statement.pdf" = None ∧
  files (fs out.1) !! filed_statement
    = Some (Inode "%PDF-1.4" (clock downloads)).
Proof. by vm_compute. Qed.

(** Claim C5, which the code breaks.  Two importers give [invoice.csv]
    different accounts, the error is logged, and the run goes on to move
    [statement.pdf] and returns the job, not the empty result. *)
Theorem ambiguous_accounts_do_not_abort_the_run :
  let out := run [assets_a; assets_b; checking] ["invoice.csv"; "statement.pdf"]
               "/docs" false true false false downloads in
  errors out.1 = ["Ambiguous accounts from many importers: Assets:A, Assets:B"] ∧
  out.2 = Ok (Some [("statement.pdf", filed_statement)]) ∧
  fs out.1 ≠ downloads ∧
  files (fs out.1) !! "statement.pdf" = None.
Proof.
  vm_compute. split; [done|]. split; [done|]. split; [|done].
  intros [=].
Qed.

(** Claim C7, which the code breaks.  The report prints the day of last
    modification, tagged [mtime], where the importer extracted the date
    2014-01-15 that the destination carries, and tags the day of last
    modification [extracted] where the importer extracted nothing; a file
    with ambiguous accounts has no report at all. *)
Theorem report_gives_mtime_and_swapped_source :
  logfile (run [checking_dated] ["statement.pdf"] "/docs"
             true true false false downloads).1
  = Some (report_block "statement.pdf" checking_dated "Assets:Bank:Checking"
            (datetime.Date 2014 6 8) "mtime"
            "/docs/Assets/Bank/Checking/2014-01-15.statement.pdf") ∧
  logfile (run [checking] ["statement.pdf"] "/docs"
             true true false false downloads).1
  = Some (report_block "statement.pdf" checking "Assets:Bank:Checking"
            (datetime.Date 2014 6 8) "extracted" filed_statement) ∧
  logfile (run [assets_a; assets_b] ["invoice.csv"] "/docs"
             true true false false downloads).1
  = Some [].
Proof. by vm_compute. Qed.

(** A date before the year 1000 is not written YYYY-MM-DD in the
    destination. *)
Example early_year_is_not_padded :
  (run [deed] ["statement.pdf"] "/docs" false true false false downloads).2
  = Ok (Some [("statement.pdf",
               "/docs/Assets/Bank/Checking/999-01-02.statement.pdf")]).
Proof. by vm_compute. Qed.

(** And the test of line 115 does not take the name for a dated one. *)
Example early_year_is_not_flagged :
  looks_dated
    (Path.basename "/docs/Assets/Bank/Checking/999-01-02.statement.pdf")
  = false.
Proof. reflexivity. Qed.

(** A time of last modification that is no date of Python stops the run at
    line 97, before the importer is asked for the date. *)
Example far_mtime_stops_the_run :
  (run [checking_dated] ["statement.pdf"] "/docs" false true false false
     misdated).2 = Raise ValueError.
Proof. by vm_compute. Qed.

(** Claim C8, which the code breaks.  With overwriting off, two files of the
    same name from two directories make a batch of two jobs with one
    destination: the test of line 154 looks at the file system only, where
    the destination is still free when the second file is resolved.  The
    moves then put the second file over the first one, whose bytes are
    lost: both sources are gone, the destination holds the second file, no
    file holds the bytes of the first, and no error is logged. *)
Theorem second_job_clobbers_the_first :
  let shared := "/docs/Assets/Bank/Checking/2014-06-08.s.pdf" in
  let batch := [("in1/s.pdf", shared); ("in2/s.pdf", shared)] in
  let out := run [checking] ["in1/s.pdf"; "in2/s.pdf"] "/docs"
               false true false false downloads in
  out.2 = Ok (Some batch) ∧
  ¬ unique_destinations batch ∧
  errors out.1 = [] ∧
  files downloads !! "in1/s.pdf" = Some (Inode "first" june_8) ∧
  files (fs out.1) !! "in1/s.pdf" = None ∧
  files (fs out.1) !! "in2/s.pdf" = None ∧
  files (fs out.1) !! shared = Some (Inode "second" (clock downloads)) ∧
  map_Forall (λ _ f, contents f ≠ "first") (files (fs out.1)).
Proof.
  cbv zeta. split; [by vm_compute|]. split.
  { unfold unique_destinations. simpl. intros [Hn _]%NoDup_cons.
    apply Hn. by left. }
  split; [by vm_compute|]. split; [by vm_compute|].
  split; [by vm_compute|]. split; [by vm_compute|]. split; [by vm_compute|].
  match goal with |- ?P => apply (@bool_decide_unpack P _) end. by vm_compute.
Qed.


End Runs.

(** ** The theorems at work *)

Section Witnesses.
Import Scenario.

(** [account_resolution] on a file without account, on one with two, on one
    whose two importers agree and which is filed under their account, and
    on the same file when the directory of the account is missing and is
    not to be made. *)
Lemma account_resolution_witness :
  (file_body idify "/docs" true false false (Locals [] false)
     ("invoice.csv", [unknown]) (start downloads)).2 = Ok (Locals [] false) ∧
  (∃ reported,
     errors (file_body idify "/docs" true false false (Locals [] false)
               ("invoice.csv", [assets_a; assets_b]) (start downloads)).1
     = ["Ambiguous accounts from many importers: " +:+ Text.join ", " reported] ∧
     "Assets:A" ∈ reported ∧ "Assets:B" ∈ reported) ∧
  (∃ p',
     file_body idify "/docs" true false false (Locals [] false)
       ("statement.pdf", [checking; checking_dated]) (start downloads)
     = (p', Ok (Locals [("statement.pdf", filed_statement)] false)) ∧
     fs p' = downloads ∧
     logfile p'
     = Some (report_block "statement.pdf" checking "Assets:Bank:Checking"
               (datetime.Date 2014 6 8) "extracted" filed_statement)) ∧
  (∃ p',
     file_body idify "/docs" false false false (Locals [] false)
       ("statement.pdf", [checking; checking_dated]) (start downloads)
     = (p', Ok (Locals [] true)) ∧
     fs p' = downloads).
Proof.
  split; [|split; [|split]].
  - destruct (account_resolution idify "/docs" true false false (Locals [] false)
                "invoice.csv" unknown [] (start downloads)) as (H & _ & _).
    rewrite H; reflexivity.
  - destruct (account_resolution idify "/docs" true false false (Locals [] false)
                "invoice.csv" assets_a [assets_b] (start downloads))
      as (_ & H & _).
    destruct (H "Assets:A" "Assets:B") as (reported & E & Hrep).
    + vm_compute. left.
    + vm_compute. right. left.
    + discriminate.
    + exists reported. rewrite E. split; [reflexivity|].
      split; apply Hrep; vm_compute; [left|right; left].
  - destruct (account_resolution idify "/docs" true false false (Locals [] false)
                "statement.pdf" checking [checking_dated] (start downloads))
      as (_ & _ & H).
    destruct (H "Assets:Bank:Checking" (Inode "%PDF-1.4" june_8)
                (datetime.Date 2014 6 8))
      as (p' & E & Hfs & Hlog).
    + vm_compute. left.
    + vm_compute. intros b Hb.
      repeat (apply elem_of_cons in Hb as [->|Hb]; [reflexivity|]).
      by apply elem_of_nil in Hb.
    + reflexivity.
    + reflexivity.
    + exists p'. split; [exact E|]. split; [exact Hfs|]. exact Hlog.
  - destruct (account_resolution idify "/docs" false false false (Locals [] false)
                "statement.pdf" checking [checking_dated] (start downloads))
      as (_ & _ & H).
    destruct (H "Assets:Bank:Checking" (Inode "%PDF-1.4" june_8)
                (datetime.Date 2014 6 8))
      as (p' & E & Hfs & _).
    + vm_compute. left.
    + vm_compute. intros b Hb.
      repeat (apply elem_of_cons in Hb as [->|Hb]; [reflexivity|]).
      by apply elem_of_nil in Hb.
    + reflexivity.
    + reflexivity.
    + exists p'. split; [exact E|]. exact Hfs.
Defined.

(** [copy_then_delete] on a move that succeeds and on one that runs out of
    space. *)
Lemma copy_then_delete_witness :
  (∃ f, files downloads !! "statement.pdf" = Some f ∧
        files (move_xdev_file "statement.pdf" filed_statement true downloads).1
          !! filed_statement = Some (Inode (contents f) (clock downloads)) ∧
        files (move_xdev_file "statement.pdf" filed_statement true downloads).1
          !! "statement.pdf" = None) ∧
  files (move_xdev_file "statement.pdf" filed_statement true nearly_full).1
    !! "statement.pdf" = files nearly_full !! "statement.pdf" ∧
  (move_jobs [("statement.pdf", filed_statement); ("in1/s.pdf", "/docs/s.pdf")]
     true nearly_full).2 = Raise (NoSpaceError filed_statement).
Proof.
  split.
  - exact (copy_then_delete [] "statement.pdf" filed_statement [] true
             downloads downloads
             (move_xdev_file "statement.pdf" filed_statement true downloads).1
             (Ok tt) eq_refl ltac:(vm_compute; reflexivity)).
  - destruct (copy_then_delete [] "statement.pdf" filed_statement
                [("in1/s.pdf", "/docs/s.pdf")] true
                nearly_full nearly_full
                (move_xdev_file "statement.pdf" filed_statement true nearly_full).1
                (Raise (NoSpaceError filed_statement)) eq_refl
                ltac:(vm_compute; reflexivity)) as [H1 H2].
    split; [exact H1|]. simpl in H2. rewrite H2. reflexivity.
Defined.

(** [single_importer_account_and_date] on the statement dated by its
    importer, and on the statement that its importer does not date, which
    is filed under its day of last modification: 2014-06-08 in Greenwich and
    2014-06-07 five hours west of it. *)
Lemma single_importer_account_and_date_witness :
  (∃ p',
     file_body idify "/docs" true false false (Locals [] false)
       ("statement.pdf", [checking_dated]) (start downloads)
     = (p', Ok (Locals [("statement.pdf",
                         "/docs/Assets/Bank/Checking/2014-01-15.statement.pdf")]
                  false))) ∧
  (∃ p',
     file_body idify "/docs" true false false (Locals [] false)
       ("statement.pdf", [checking]) (start downloads)
     = (p', Ok (Locals [("statement.pdf",
                         "/docs/Assets/Bank/Checking/2014-06-08.statement.pdf")]
                  false))) ∧
  (∃ p',
     file_body idify "/docs" true false false (Locals [] false)
       ("statement.pdf", [checking]) (start abroad)
     = (p', Ok (Locals [("statement.pdf",
                         "/docs/Assets/Bank/Checking/2014-06-07.statement.pdf")]
                  false))).
Proof.
  split; [|split].
  - exact (single_importer_account_and_date idify "/docs" true false false
             (Locals [] false) "statement.pdf" checking_dated
             "Assets:Bank:Checking" (Inode "%PDF-1.4" june_8)
             (datetime.Date 2014 6 8) (start downloads)
             eq_refl ltac:(vm_compute; reflexivity) eq_refl).
  - exact (single_importer_account_and_date idify "/docs" true false false
             (Locals [] false) "statement.pdf" checking
             "Assets:Bank:Checking" (Inode "%PDF-1.4" june_8)
             (datetime.Date 2014 6 8) (start downloads)
             eq_refl ltac:(vm_compute; reflexivity) eq_refl).
  - exact (single_importer_account_and_date idify "/docs" true false false
             (Locals [] false) "statement.pdf" checking
             "Assets:Bank:Checking" (Inode "%PDF-1.4" june_8)
             (datetime.Date 2014 6 7) (start abroad)
             eq_refl ltac:(vm_compute; reflexivity) eq_refl).
Defined.


(** [destinations_checked_on_the_file_system] with overwriting off and no
    directory made. *)
Lemma destinations_checked_on_the_file_system_witness :
  os.exists_ documents filed_statement = false ∧
  os.exists_ documents (Path.dirname filed_statement) = true.
Proof.
  pose proof (destinations_checked_on_the_file_system idify
                [("statement.pdf", [checking])] "/docs" false false false
                (start documents)
                (resolve idify [("statement.pdf", [checking])] "/docs"
                   false false false (start documents)).1
                (Locals [("statement.pdf", filed_statement)] false)
                ltac:(vm_compute; reflexivity)
                "statement.pdf" filed_statement ltac:(simpl; left)) as [H1 H2].
  split; [exact (H1 eq_refl)|exact (H2 eq_refl)].
Defined.

(** [destination_directly_in_account_directory] on a name with a directory
    part and a blank. *)
Lemma destination_directly_in_account_directory_witness :
  ∃ importer rest a f mtime_date,
    ("statement.pdf", importer :: rest) ∈ renamed ∧
    file_accounts_of (importer :: rest) (cache.Build "statement.pdf")
      = {[Some a]} ∧
    files downloads !! "statement.pdf" = Some f ∧
    mtime_date_of downloads f = Some mtime_date ∧
    let clean_basename :=
      clean_basename_of idify importer (cache.Build "statement.pdf") true in
    let new_filename :=
      datetime.strftime_ymd
        (resolved_date importer (cache.Build "statement.pdf") mtime_date)
      +:+ "." +:+ clean_basename in
    Text.contains Text.sep clean_basename = false ∧
    Path.basename filed_renamed = new_filename ∧
    (Path.dirname filed_renamed = account_directory "/docs" a ∨
     account_directory "/docs" a = "." ∧ Path.dirname filed_renamed = "").
Proof.
  apply (destination_directly_in_account_directory idify renamed "/docs"
           true false true (start downloads)
           (resolve idify renamed "/docs" true false true (start downloads)).1
           (Locals [("statement.pdf", filed_renamed)] false)).
  - intros _ s Hs. apply replace_no_sep; [discriminate|exact Hs].
  - vm_compute. reflexivity.
  - simpl. left.
Defined.

End Witnesses.

(** * Further properties *)

(** ** One round of the loop, by its candidate *)

Lemma sole_account_Some importers file a :
  sole_account importers file = Some a ↔
  file_accounts_of importers file = {[Some a]}.
Proof.
  unfold sole_account. split.
  - intros H. apply set_eq. intros o. rewrite <-elem_of_elements.
    destruct (elements (file_accounts_of importers file)) as [|[b|] [|y l]];
      simplify_eq. rewrite list_elem_of_singleton, elem_of_singleton. done.
  - intros ->. by rewrite elements_singleton.
Qed.

Lemma sole_account_empty importers file :
  file_accounts_of importers file = ∅ → sole_account importers file = None.
Proof. intros E. unfold sole_account. by rewrite E, elements_empty. Qed.

Lemma sole_account_many importers file :
  (1 < size (file_accounts_of importers file))%nat →
  sole_account importers file = None.
Proof.
  unfold sole_account, size, set_size. simpl.
  destruct (elements (file_accounts_of importers file)) as [|[b|] [|y l]];
    simpl; try done; lia.
Qed.

Section Rounds.
Variable idf : string → string.

(** A round of the loop on a candidate, by what [destination_of] says. *)
Lemma file_body_round d mk ow idify l filename importers p :
  match destination_of idf d idify (fs p) (filename, importers) with
  | Some dst =>
      ∃ p',
        file_body idf d mk ow idify l (filename, importers) p =
          (p', Ok (if destination_ok (fs p) mk ow dst
                   then Locals (jobs l ++ [(filename, dst)]) (has_errors l)
                   else Locals (jobs l) true)) ∧
        fs p' = fs p ∧
        logfile p' =
          (λ o, o ++ report_of idf d idify (fs p) (filename, importers))
            <$> logfile p
  | None =>
      (∃ p', file_body idf d mk ow idify l (filename, importers) p = (p', Ok l) ∧
             fs p' = fs p ∧ logfile p' = logfile p ∧
             report_of idf d idify (fs p) (filename, importers) = []) ∨
      (∃ e, file_body idf d mk ow idify l (filename, importers) p
              = (p, Raise e) ∧
            ∀ f, files (fs p) !! filename = Some f →
                 mtime_date_of (fs p) f = None)
  end.
Proof.
  unfold destination_of, report_of. simpl.
  destruct importers as [|importer rest].
  { left. exists p. done. }
  set (file := cache.Build filename).
  destruct (decide (file_accounts_of (importer :: rest) file = ∅)) as [HE|HE].
  { rewrite (sole_account_empty _ _ HE). left.
    unfold file_body. fold file. rewrite bool_decide_eq_true_2 by done.
    eexists. split; [reflexivity|]. done. }
  destruct (decide (1 < size (file_accounts_of (importer :: rest) file))%nat)
    as [HS|HS].
  { rewrite (sole_account_many _ _ HS). left.
    unfold file_body. fold file. rewrite bool_decide_eq_false_2 by done.
    rewrite bool_decide_eq_true_2 by done.
    eexists. split; [reflexivity|]. done. }
  assert (size (file_accounts_of (importer :: rest) file) = 1%nat)
    as [o Ho]%size_1_elem_of.
  { assert (size (file_accounts_of (importer :: rest) file) ≠ 0%nat)
      by (rewrite size_non_empty_iff; by intros ?%leibniz_equiv).
    lia. }
  apply leibniz_equiv in Ho.
  assert (o ∈ file_accounts_of (importer :: rest) file) as Hin
    by (rewrite Ho; by apply elem_of_singleton).
  apply elem_of_file_accounts in Hin as (a & -> & _).
  rewrite (proj2 (sole_account_Some _ _ a) Ho).
  destruct (files (fs p) !! filename) as [f|] eqn:Hf.
  - destruct (mtime_date_of (fs p) f) as [mtime_date|] eqn:Hd.
    + destruct (file_body_resolved' idf d mk ow idify l filename importer rest
                  a f mtime_date p Ho Hf Hd) as (p' & E & Hfs & Hlog).
      exists p'. done.
    + right. exists ValueError. split; [|by intros ? [= <-]].
      by apply (file_body_out_of_range idf d mk ow idify l filename importer
                  rest a f).
  - right. exists (FileNotFoundError filename). split; [|done].
    unfold file_body. fold file. rewrite bool_decide_eq_false_2 by done.
    rewrite bool_decide_eq_false_2 by done.
    rewrite Ho, elements_singleton. run. rewrite Hf. by destruct p.
Qed.

Lemma resolve_loop_ok d mk ow idify ms l p p' l' :
  for_each (file_body idf d mk ow idify) ms l p = (p', Ok l') →
  jobs l' = jobs l ++ omap (job_of idf d mk ow idify (fs p)) ms ∧
  has_errors l' = has_errors l || existsb (refused idf d mk ow idify (fs p)) ms ∧
  logfile p' = (λ o, o ++ concat (report_of idf d idify (fs p) <$> ms))
                 <$> logfile p.
Proof.
  revert l p. induction ms as [|[filename importers] ms IH]; intros l p.
  { intros [= <- <-]. rewrite app_nil_r, orb_false_r. simpl.
    split; [done|]. split; [done|].
    destruct (logfile p); simpl; by rewrite ?app_nil_r. }
  rewrite for_each_cons.
  pose proof (file_body_round d mk ow idify l filename importers p) as Hr.
  rewrite fmap_cons. cbn [existsb concat omap list_omap].
  unfold job_of at 1, refused at 1.
  destruct (destination_of idf d idify (fs p) (filename, importers)) as [dst|].
  - destruct Hr as (p1 & E & Hfs & Hlog). rewrite E.
    intros (Hj & He & Hl)%IH. rewrite Hfs in *. rewrite Hj, He, Hl, Hlog.
    destruct (destination_ok (fs p) mk ow dst); cbn [negb jobs has_errors fst].
    + rewrite <-app_assoc. split; [done|]. split; [done|].
      destruct (logfile p); simpl; by rewrite <-?app_assoc.
    + rewrite orb_true_r. split; [done|]. split; [done|].
      destruct (logfile p); simpl; by rewrite <-?app_assoc.
  - destruct Hr as [(p1 & E & Hfs & Hlog & Hrep)|(e & E & _)]; rewrite E;
      [|done].
    intros (Hj & He & Hl)%IH. rewrite Hfs in *. rewrite Hj, He, Hl, Hlog, Hrep.
    done.
Qed.

End Rounds.

(** ** What a move touches *)

Lemma mkdir_dirs name fs fs' r :
  os.mkdir name fs = (fs', r) → dirs fs ⊆ dirs fs'.
Proof.
  unfold os.mkdir. intros H.
  repeat (case_match; simplify_eq/=; try done).
  apply union_subseteq_r.
Qed.

Lemma makedirs_rec_dirs n name fs fs' r :
  os.makedirs_rec n name fs = (fs', r) → dirs fs ⊆ dirs fs'.
Proof.
  revert name fs fs' r. induction n as [|n IH]; intros name fs fs' r; simpl.
  { by intros [= <- <-]. }
  unfold Path.split.
  set (ht := if bool_decide (Path.basename name = "")
             then (Path.dirname (Path.dirname name),
                   Path.basename (Path.dirname name))
             else (Path.dirname name, Path.basename name)).
  destruct ht as [head tail].
  destruct (negb (bool_decide (head = "")) && negb (bool_decide (tail = ""))
            && negb (os.exists_ fs head)).
  - destruct (os.makedirs_rec n head fs) as [fs1 r1] eqn:E1.
    apply IH in E1. intros H.
    destruct r1 as [[]|e]; [|destruct e]; try (by simplify_eq/=);
      (destruct (bool_decide (tail = ".")); [by simplify_eq/=|];
       apply mkdir_dirs in H; by etrans).
  - apply mkdir_dirs.
Qed.

Lemma copyfile_frame src dst fs fs' r q :
  shutil.copyfile src dst fs = (fs', r) → q ≠ dst →
  files fs' !! q = files fs !! q.
Proof.
  unfold shutil.copyfile. intros H Hq.
  repeat (case_bool_decide || case_match; simplify_eq/=; try done);
    by rewrite lookup_insert_ne.
Qed.

Lemma copyfile_dirs src dst fs fs' r :
  shutil.copyfile src dst fs = (fs', r) →
  dirs fs' = dirs fs ∧ clock fs' = clock fs.
Proof.
  unfold shutil.copyfile. intros H.
  repeat (case_bool_decide || case_match; simplify_eq/=; try done).
Qed.

Lemma remove_frame src fs fs' r q :
  os.remove src fs = (fs', r) → q ≠ src →
  files fs' !! q = files fs !! q.
Proof.
  unfold os.remove. intros H Hq.
  repeat (case_match; simplify_eq/=; try done). by rewrite lookup_delete_ne.
Qed.

Lemma remove_dirs src fs fs' r :
  os.remove src fs = (fs', r) → dirs fs' = dirs fs ∧ clock fs' = clock fs.
Proof.
  unfold os.remove. intros H.
  repeat (case_match; simplify_eq/=; try done).
Qed.

Lemma move_prepare src dst mk fs fs' r :
  move_xdev_file src dst mk fs = (fs', r) →
  (∃ e, r = Raise e ∧ files fs' = files fs ∧ clock fs' = clock fs ∧
        dirs fs ⊆ dirs fs') ∨
  ∃ fs1, files fs1 = files fs ∧ clock fs1 = clock fs ∧ dirs fs ⊆ dirs fs1 ∧
    (shutil.copyfile src dst;; os.remove src) fs1 = (fs', r).
Proof.
  unfold move_xdev_file. run.
  destruct mk; destruct (negb (os.exists_ fs (Path.dirname dst))).
  - destruct (os.makedirs (Path.dirname dst) fs) as [fs1 r1] eqn:E1.
    pose proof (makedirs_rec_dirs _ _ _ _ _ E1) as Hd.
    apply makedirs_rec_files in E1 as [Hf Hc].
    destruct r1 as [[]|e].
    + intros H. right. exists fs1. done.
    + intros [= <- <-]. left. eauto.
  - intros H. right. exists fs. done.
  - intros [= <- <-]. left. eauto.
  - intros H. right. exists fs. done.
Qed.

Lemma move_frame src dst mk fs fs' r q :
  move_xdev_file src dst mk fs = (fs', r) → q ≠ src → q ≠ dst →
  files fs' !! q = files fs !! q.
Proof.
  intros [(e & _ & -> & _)|(fs1 & Hf & _ & _ & H)]%move_prepare Hs Hd; [done|].
  rewrite <-Hf. run.
  destruct (shutil.copyfile src dst fs1) as [fs2 r2] eqn:Hcopy.
  pose proof (copyfile_frame _ _ _ _ _ q Hcopy Hd) as <-.
  destruct r2 as [[]|e]; [|by simplify_eq].
  by eapply remove_frame.
Qed.

Lemma move_keeps_dirs src dst mk fs fs' r :
  move_xdev_file src dst mk fs = (fs', r) →
  dirs fs ⊆ dirs fs' ∧ clock fs' = clock fs.
Proof.
  intros [(e & _ & _ & ? & ?)|(fs1 & _ & Hc & Hd & H)]%move_prepare; [done|].
  run.
  destruct (shutil.copyfile src dst fs1) as [fs2 r2] eqn:Hcopy.
  apply copyfile_dirs in Hcopy as [Hd2 Hc2].
  destruct r2 as [[]|e].
  - apply remove_dirs in H as [Hd3 Hc3]. split; [|congruence].
    by rewrite Hd3, Hd2.
  - simplify_eq. split; [|congruence]. by rewrite Hd2.
Qed.

Lemma move_ok src dst mk fs fs' :
  move_xdev_file src dst mk fs = (fs', Ok tt) →
  ∃ f, files fs !! src = Some f ∧ src ≠ dst ∧
       files fs' = delete src (<[dst := Inode (contents f) (clock fs)]> (files fs)).
Proof.
  intros [(e & ? & _)|(fs1 & Hf & Hc & _ & H)]%move_prepare; [done|].
  run.
  destruct (shutil.copyfile src dst fs1) as [fs2 [[]|e]] eqn:Hcopy; [|done].
  apply copyfile_ok in Hcopy as (f & Hsrc & Hne & Hfiles).
  assert (files fs2 !! src = Some f) as Hsrc2.
  { rewrite Hfiles, lookup_insert_ne by done. done. }
  destruct (remove_ok src fs2 f Hsrc2) as (fs3 & Hrm & Hdel).
  rewrite Hrm in H. simplify_eq. exists f.
  rewrite <-Hf, <-Hc, Hdel, Hfiles. done.
Qed.

Lemma move_jobs_cons src dst js mk fs :
  move_jobs ((src, dst) :: js) mk fs =
  match move_xdev_file src dst mk fs with
  | (fs1, Ok _) => move_jobs js mk fs1
  | (fs1, Raise e) => (fs1, Raise e)
  end.
Proof.
  unfold move_jobs. rewrite for_each_cons.
  by destruct (move_xdev_file src dst mk fs) as [fs1 [[]|e]].
Qed.

Lemma move_jobs_frame js mk fs fs' r q :
  move_jobs js mk fs = (fs', r) →
  q ∉ js.*1 → q ∉ js.*2 →
  files fs' !! q = files fs !! q.
Proof.
  revert fs. induction js as [|[src dst] js IH]; intros fs.
  { by intros [= <- <-]. }
  rewrite move_jobs_cons. rewrite !fmap_cons, !not_elem_of_cons. simpl.
  intros H [Hs Hs'] [Hd Hd'].
  destruct (move_xdev_file src dst mk fs) as [fs1 r1] eqn:E.
  pose proof (move_frame _ _ _ _ _ _ q E Hs Hd) as <-.
  destruct r1 as [[]|e]; [by apply IH|by simplify_eq].
Qed.

Lemma move_jobs_keeps_dirs js mk fs fs' r :
  move_jobs js mk fs = (fs', r) → dirs fs ⊆ dirs fs' ∧ clock fs' = clock fs.
Proof.
  revert fs. induction js as [|[src dst] js IH]; intros fs.
  { by intros [= <- <-]. }
  rewrite move_jobs_cons.
  destruct (move_xdev_file src dst mk fs) as [fs1 r1] eqn:E.
  apply move_keeps_dirs in E as [Hd Hc].
  destruct r1 as [[]|e].
  - intros [Hd' Hc']%IH. split; [by etrans|congruence].
  - by intros [= <- <-].
Qed.

(** After the moves, a path that is no destination and that was free or is
    one of the sources is free. *)
Lemma move_jobs_sources_gone js mk fs fs' q :
  move_jobs js mk fs = (fs', Ok tt) →
  q ∉ js.*2 →
  files fs !! q = None ∨ q ∈ js.*1 →
  files fs' !! q = None.
Proof.
  revert fs. induction js as [|[src dst] js IH]; intros fs.
  { intros [= <-] _ [?|[]%elem_of_nil]. done. }
  rewrite move_jobs_cons. rewrite !fmap_cons, not_elem_of_cons, elem_of_cons.
  simpl. intros H [Hd Hd'] Hq.
  destruct (move_xdev_file src dst mk fs) as [fs1 [[]|e]] eqn:E; [|done].
  apply move_ok in E as (f & Hsrc & Hne & Hfiles).
  apply (IH fs1 H Hd').
  destruct (decide (q = src)) as [->|Hqs].
  { left. rewrite Hfiles. apply lookup_delete_eq. }
  destruct Hq as [Hq|[?|Hq]]; [|done|by right].
  left. by rewrite Hfiles, lookup_delete_ne, lookup_insert_ne.
Qed.

(** After the moves, each destination holds the bytes of its source, when
    the destinations differ from each other and from the sources. *)
Lemma move_jobs_delivers js mk fs fs' :
  move_jobs js mk fs = (fs', Ok tt) →
  NoDup js.*2 →
  (∀ q, q ∈ js.*1 → q ∉ js.*2) →
  ∀ src dst, (src, dst) ∈ js →
    ∃ f, files fs !! src = Some f ∧
         files fs' !! dst = Some (Inode (contents f) (clock fs)).
Proof.
  revert fs. induction js as [|[s d] js IH]; intros fs.
  { intros _ _ _ src dst []%elem_of_nil. }
  rewrite move_jobs_cons, !fmap_cons. simpl.
  intros H [Hd Hnd]%NoDup_cons Hsd src dst Hin.
  destruct (move_xdev_file s d mk fs) as [fs1 [[]|e]] eqn:E; [|done].
  pose proof (move_keeps_dirs _ _ _ _ _ _ E) as [_ Hc].
  apply move_ok in E as (f & Hsrc & Hne & Hfiles).
  apply elem_of_cons in Hin as [[= -> ->]|Hin].
  - exists f. split; [done|].
    rewrite (move_jobs_frame _ _ _ _ _ d H).
    + by rewrite Hfiles, lookup_delete_ne, lookup_insert_eq.
    + intros Hds. apply (Hsd d); [by apply list_elem_of_further|].
      apply list_elem_of_here.
    + done.
  - destruct (IH fs1 H Hnd) with (src := src) (dst := dst)
      as (f' & Hsrc' & Hdst'); [|done|].
    { intros q Hq Hq'. apply (Hsd q); by apply list_elem_of_further. }
    exists f'. rewrite <-Hc. split; [|done].
    rewrite Hfiles in Hsrc'.
    apply lookup_delete_Some in Hsrc' as [Hne' Hsrc'].
    rewrite lookup_insert_ne in Hsrc'; [done|].
    intros <-. apply (Hsd d); [|apply list_elem_of_here].
    apply list_elem_of_further.
    apply list_elem_of_fmap. by exists (d, dst).
Qed.

(** ** Whole runs *)

Section Gate.
Variable find_imports :
  list Importer.t → list string → filesystem → list (string * list Importer.t).
Variable idf : string → string.

Lemma file_run cfg inputs d dry mk ow idify p :
  file find_imports idf cfg inputs d dry mk ow idify p =
  file_matches idf (find_imports cfg inputs (fs p)) d dry mk ow idify p.
Proof. reflexivity. Qed.

Lemma file_matches_raise ms d dry mk ow idify p p1 e :
  resolve idf ms d mk ow idify p = (p1, Raise e) →
  file_matches idf ms d dry mk ow idify p = (p1, Raise e).
Proof. intros H. unfold file_matches. run. by rewrite H. Qed.

Lemma file_dry_run cfg inputs d mk ow idify p :
  fs (file find_imports idf cfg inputs d true mk ow idify p).1 = fs p ∧
  ∀ jobs, (file find_imports idf cfg inputs d true mk ow idify p).2
          ≠ Ok (Some jobs).
Proof.
  rewrite file_run. set (ms := find_imports cfg inputs (fs p)).
  destruct (resolve idf ms d mk ow idify p) as [p1 [l|e]] eqn:E.
  - destruct (file_matches_gate idf ms d true mk ow idify p p1 l E eq_refl)
      as [-> Hfs]. done.
  - rewrite (file_matches_raise _ _ _ _ _ _ _ _ _ E). simpl.
    split; [|done]. by eapply resolve_loop_fs.
Qed.


(** Property X1.  A dry run changes nothing on the file system, whatever the
    candidates are and whether resolution returns or raises, and it never
    returns a list of jobs. *)
Theorem dry_run_changes_nothing cfg inputs d mk ow idify p :
  fs (file find_imports idf cfg inputs d true mk ow idify p).1 = fs p ∧
  ∀ jobs, (file find_imports idf cfg inputs d true mk ow idify p).2
          ≠ Ok (Some jobs).
Proof. apply file_dry_run. Qed.

(** Property X2.  When every candidate that an importer matched is a file
    whose time of last modification falls, in the local zone, on a day of the
    years 1 to 9999, the resolution loop returns: [file_accounts.pop()] of
    line 89 and [file_account.replace] of line 131 never fail, since the set
    has exactly one element there and [None] was discarded from it.  The
    importers are functions and raise nothing. *)
Theorem resolution_returns_on_files_with_a_date ms d mk ow idify p :
  (∀ filename importers, (filename, importers) ∈ ms → importers ≠ [] →
     ∃ f, files (fs p) !! filename = Some f ∧
          is_Some (mtime_date_of (fs p) f)) →
  ∃ p' l, resolve idf ms d mk ow idify p = (p', Ok l).
Proof.
  intros Hall.
  assert (∀ l, ∃ p' l', for_each (file_body idf d mk ow idify) ms l p
                        = (p', Ok l')) as H; [|apply H].
  revert p Hall. induction ms as [|[filename importers] ms' IH]; intros p Hall l.
  { by eexists _, _. }
  rewrite for_each_cons.
  pose proof (file_body_round idf d mk ow idify l filename importers p) as Hr.
  assert (∀ p1, fs p1 = fs p →
            ∀ filename importers, (filename, importers) ∈ ms' →
              importers ≠ [] →
              ∃ f, files (fs p1) !! filename = Some f ∧
                   is_Some (mtime_date_of (fs p1) f)) as Hrest.
  { intros p1 -> f i Hin. apply Hall. by apply list_elem_of_further. }
  destruct (destination_of idf d idify (fs p) (filename, importers)) as [dst|].
  - destruct Hr as (p1 & -> & Hfs & _). by apply IH, Hrest.
  - destruct Hr as [(p1 & -> & Hfs & _)|(e & E & Hf)]; [by apply IH, Hrest|].
    destruct importers as [|importer rest].
    { unfold file_body in E. done. }
    destruct (Hall filename (importer :: rest)) as (f & Hf' & [md Hmd]);
      [apply list_elem_of_here|done|].
    rewrite (Hf f Hf') in Hmd. done.
Qed.

(** Property X3.  The loop is a map over the candidates.  The batch holds,
    in the order of the candidates, a job for each candidate with importers,
    exactly one account and a destination that passes the checks of lines
    145 to 157 on the file system the run started in; and [has_errors] is
    set exactly when the destination of some candidate fails these checks. *)
Theorem jobs_in_candidate_order ms d mk ow idify p p' l :
  resolve idf ms d mk ow idify p = (p', Ok l) →
  jobs l = omap (job_of idf d mk ow idify (fs p)) ms ∧
  has_errors l = existsb (refused idf d mk ow idify (fs p)) ms.
Proof.
  intros (Hj & He & _)%resolve_loop_ok. done.
Qed.

(** Property X4.  With a log file, the filing code appends the block of
    lines 136 to 143 for each candidate that has one account, in the order
    of the candidates, and nothing for a candidate without importer or whose
    account is missing or ambiguous.  What [find_imports] prints itself is
    not part of the model. *)
Theorem report_per_filed_candidate ms d mk ow idify p p' l :
  resolve idf ms d mk ow idify p = (p', Ok l) →
  logfile p' =
    (λ out, out ++ concat (report_of idf d idify (fs p) <$> ms)) <$> logfile p.
Proof.
  intros (_ & _ & Hl)%resolve_loop_ok. done.
Qed.

(** Property X5.  When the destination of one candidate is refused, for a
    missing directory or a file in the way, the run changes nothing on the
    file system and returns no list of jobs, whatever [dry_run] is. *)
Theorem refused_destination_stops_the_run cfg inputs d dry mk ow idify p :
  existsb (refused idf d mk ow idify (fs p)) (find_imports cfg inputs (fs p))
    = true →
  fs (file find_imports idf cfg inputs d dry mk ow idify p).1 = fs p ∧
  ∀ jobs, (file find_imports idf cfg inputs d dry mk ow idify p).2
          ≠ Ok (Some jobs).
Proof.
  rewrite file_run. set (ms := find_imports cfg inputs (fs p)). intros Hex.
  destruct (resolve idf ms d mk ow idify p) as [p1 [l|e]] eqn:E.
  - pose proof (resolve_loop_ok _ _ _ _ _ _ _ _ _ _ E) as (_ & He & _).
    simpl in He. rewrite Hex in He.
    destruct (file_matches_gate idf ms d dry mk ow idify p p1 l E)
      as [-> Hfs]; [by rewrite He, orb_true_r|done].
  - rewrite (file_matches_raise _ _ _ _ _ _ _ _ _ E). simpl.
    split; [|done]. by eapply resolve_loop_fs.
Qed.

Lemma refused_never d idify fs0 m : refused idf d true true idify fs0 m = false.
Proof.
  unfold refused. destruct (destination_of idf d idify fs0 m); [|done].
  unfold destination_ok. simpl. by rewrite andb_false_r.
Qed.

(** Property X6.  With [mkdirs] and [overwrite] both set, as [main] has them
    when [--no-overwrite] is not given, no destination is refused: a run
    that is not a dry run never ends with the bare [return] of line 164, it
    returns the jobs or raises. *)
Theorem no_refusal_when_making_directories_and_overwriting
    cfg inputs d idify p :
  (file find_imports idf cfg inputs d false true true idify p).2 ≠ Ok None.
Proof.
  rewrite file_run. set (ms := find_imports cfg inputs (fs p)).
  destruct (resolve idf ms d true true idify p) as [p1 [l|e]] eqn:E.
  - pose proof (resolve_loop_ok _ _ _ _ _ _ _ _ _ _ E) as (_ & He & _).
    simpl in He.
    assert (has_errors l = false) as Hl.
    { rewrite He. clear. induction ms as [|m ms IH]; [done|].
      simpl. by rewrite refused_never. }
    rewrite (file_matches_moves idf ms d false true true idify p p1 l E)
      by (by rewrite Hl).
    by destruct (move_jobs (jobs l) true (fs p)) as [fs' [[]|e]].
  - by rewrite (file_matches_raise _ _ _ _ _ _ _ _ _ E).
Qed.

Lemma resolve_loop_out_of_range d mk ow idify ms l p filename importer rest a f :
  (filename, importer :: rest) ∈ ms →
  file_accounts_of (importer :: rest) (cache.Build filename) = {[Some a]} →
  files (fs p) !! filename = Some f →
  mtime_date_of (fs p) f = None →
  ∃ p' e, for_each (file_body idf d mk ow idify) ms l p = (p', Raise e).
Proof.
  intros Hin HS. revert l p.
  induction ms as [|[fn imps] ms' IH]; intros l p Hf Hd;
    [by apply elem_of_nil in Hin|].
  rewrite for_each_cons.
  apply elem_of_cons in Hin as [[= <- <-]|Hin].
  - rewrite (file_body_out_of_range idf d mk ow idify l filename importer
               rest a f p HS Hf Hd). eauto.
  - destruct (file_body idf d mk ow idify l (fn, imps) p)
      as [p2 [l2|e2]] eqn:E2; [|eauto].
    apply file_body_fs in E2. apply IH; [done|by rewrite E2..].
Qed.

(** Property X17.  A candidate with one account that is a file whose time of
    last modification is no date of Python (its local day is not in the
    years 1 to 9999) stops the run: resolution raises at it or before it,
    whether or not its importer gives the date, and nothing is moved. *)
Theorem a_file_without_a_date_stops_the_run
    cfg inputs d dry mk ow idify p filename importer rest a f :
  (filename, importer :: rest) ∈ find_imports cfg inputs (fs p) →
  file_accounts_of (importer :: rest) (cache.Build filename) = {[Some a]} →
  files (fs p) !! filename = Some f →
  mtime_date_of (fs p) f = None →
  ∃ p' e, file find_imports idf cfg inputs d dry mk ow idify p = (p', Raise e) ∧
          fs p' = fs p.
Proof.
  rewrite file_run. intros Hin HS Hf Hd.
  destruct (resolve_loop_out_of_range d mk ow idify _ (Locals [] false) p
              filename importer rest a f Hin HS Hf Hd) as (p1 & e & E).
  exists p1, e. split; [by apply file_matches_raise|].
  by eapply resolve_loop_fs.
Qed.

End Gate.

Lemma destination_of_Some idf d idify fs0 m dst :
  destination_of idf d idify fs0 m = Some dst → is_Some (files fs0 !! m.1).
Proof.
  unfold destination_of. destruct (m.2); [done|].
  destruct (sole_account _ _); [|done].
  by destruct (files fs0 !! m.1).
Qed.

Lemma job_of_Some idf d mk ow idify fs0 m j :
  job_of idf d mk ow idify fs0 m = Some j →
  j.1 = m.1 ∧ destination_of idf d idify fs0 m = Some j.2 ∧
  destination_ok fs0 mk ow j.2 = true.
Proof.
  unfold job_of. destruct (destination_of idf d idify fs0 m) as [dst|]; [|done].
  destruct (destination_ok fs0 mk ow dst) eqn:E; [|done].
  by intros [= <-].
Qed.

Lemma move_without_mkdirs src dst fs fs' r :
  move_xdev_file src dst false fs = (fs', r) → dirs fs' = dirs fs.
Proof.
  unfold move_xdev_file. run.
  destruct (negb (os.exists_ fs (Path.dirname dst))); [by intros [= <- <-]|].
  destruct (shutil.copyfile src dst fs) as [fs2 r2] eqn:Hcopy.
  apply copyfile_dirs in Hcopy as [Hd2 _].
  destruct r2 as [[]|e].
  - intros [Hd3 _]%remove_dirs. congruence.
  - by intros [= <- <-].
Qed.

Lemma move_jobs_without_mkdirs js fs fs' r :
  move_jobs js false fs = (fs', r) → dirs fs' = dirs fs.
Proof.
  revert fs. induction js as [|[src dst] js IH]; intros fs.
  { by intros [= <- <-]. }
  rewrite move_jobs_cons.
  destruct (move_xdev_file src dst false fs) as [fs1 r1] eqn:E.
  apply move_without_mkdirs in E.
  destruct r1 as [[]|e].
  - intros ->%IH. done.
  - by intros [= <- <-].
Qed.

(** Property X7.  [move_xdev_file] touches the source and the destination
    only: every other path has the file it had, whether the move returns or
    raises. *)
Theorem move_touches_source_and_destination_only src dst mk fs q :
  q ≠ src → q ≠ dst →
  files (move_xdev_file src dst mk fs).1 !! q = files fs !! q.
Proof.
  destruct (move_xdev_file src dst mk fs) as [fs' r] eqn:E.
  intros. by eapply move_frame.
Qed.

Section Effects.
Variable find_imports :
  list Importer.t → list string → filesystem → list (string * list Importer.t).
Variable idf : string → string.

(** What a run does, by the outcome of resolution. *)
Lemma file_outcome cfg inputs d dry mk ow idify p :
  let ms := find_imports cfg inputs (fs p) in
  let run := file find_imports idf cfg inputs d dry mk ow idify p in
  (fs run.1 = fs p ∧ ∀ js, run.2 ≠ Ok (Some js)) ∨
  ∃ p1 l, resolve idf ms d mk ow idify p = (p1, Ok l) ∧
    jobs l = omap (job_of idf d mk ow idify (fs p)) ms ∧
    Forall (job_resolved idf ms d mk ow idify (fs p)) (jobs l) ∧
    ∃ r, move_jobs (jobs l) mk (fs p) = (fs run.1, r) ∧
      ∀ js, run.2 = Ok (Some js) → js = jobs l ∧ r = Ok tt.
Proof.
  intros ms run. unfold run. rewrite file_run. fold ms.
  destruct (resolve idf ms d mk ow idify p) as [p1 [l|e]] eqn:E.
  - destruct (dry || has_errors l) eqn:Hg.
    + left. destruct (file_matches_gate idf ms d dry mk ow idify p p1 l E Hg)
        as [-> Hfs]. done.
    + right. exists p1, l. split; [done|].
      pose proof (resolve_loop_ok _ _ _ _ _ _ _ _ _ _ E) as (Hj & _).
      pose proof (resolve_jobs _ _ _ _ _ _ _ _ _ E) as [_ Hall].
      split; [done|]. split; [done|].
      rewrite (file_matches_moves idf ms d dry mk ow idify p p1 l E Hg).
      destruct (move_jobs (jobs l) mk (fs p)) as [fs' [[]|e]]; simpl.
      * exists (Ok tt). split; [done|]. by intros js [= <-].
      * exists (Raise e). done.
  - left. rewrite (file_matches_raise _ _ _ _ _ _ _ _ _ _ E). simpl.
    split; [|done]. by eapply resolve_loop_fs.
Qed.

(** Property X8.  A run touches candidates and their destinations only: a
    path that is no candidate and is the destination of none has the file it
    had, whatever the flags are and whether the run returns or raises. *)
Theorem run_touches_candidates_and_destinations_only
    cfg inputs d dry mk ow idify p q :
  q ∉ (find_imports cfg inputs (fs p)).*1 →
  (∀ m, m ∈ find_imports cfg inputs (fs p) →
     destination_of idf d idify (fs p) m ≠ Some q) →
  files (fs (file find_imports idf cfg inputs d dry mk ow idify p).1) !! q
    = files (fs p) !! q.
Proof.
  intros Hsrc Hdst.
  destruct (file_outcome cfg inputs d dry mk ow idify p)
    as [[-> _]|(p1 & l & _ & Hj & _ & r & Hmv & _)]; [done|].
  apply (move_jobs_frame _ _ _ _ _ q Hmv); rewrite Hj.
  - intros (j & -> & (m & Hm & Hjob)%list_elem_of_omap)%list_elem_of_fmap.
    apply job_of_Some in Hjob as (E1 & _). apply Hsrc. rewrite E1.
    apply list_elem_of_fmap. by exists m.
  - intros (j & -> & (m & Hm & Hjob)%list_elem_of_omap)%list_elem_of_fmap.
    apply job_of_Some in Hjob as (_ & Hd & _). by apply (Hdst m).
Qed.

Lemma no_destination_is_a_source ms d mk idify fs0 js :
  Forall (job_resolved idf ms d mk false idify fs0) js →
  ∀ q, q ∈ js.*1 → q ∉ js.*2.
Proof.
  rewrite Forall_forall. intros Hall q.
  intros (j & -> & Hj)%list_elem_of_fmap (j' & Hq & Hj')%list_elem_of_fmap.
  destruct (Hall _ Hj) as (_ & _ & _ & f & _ & _ & _ & Hf & _).
  destruct (Hall _ Hj') as (_ & _ & _ & _ & _ & _ & _ & _ & _ & _ & Hok).
  unfold destination_ok, os.exists_ in Hok. rewrite <-Hq in Hok.
  rewrite (bool_decide_eq_true_2 (is_Some (files fs0 !! j.1))) in Hok
    by (by rewrite Hf).
  simpl in Hok. by rewrite andb_false_r in Hok.
Qed.

(** Property X9.  When overwriting is off and the run returns its jobs,
    the source of every job is gone. *)
Theorem sources_gone_after_a_run_without_overwrite
    cfg inputs d dry mk idify p p' js :
  file find_imports idf cfg inputs d dry mk false idify p = (p', Ok (Some js)) →
  ∀ src dst, (src, dst) ∈ js → files (fs p') !! src = None.
Proof.
  intros E src dst Hin.
  destruct (file_outcome cfg inputs d dry mk false idify p)
    as [[_ H]|(p1 & l & _ & _ & Hall & r & Hmv & Hr)];
    rewrite E in *; simpl in *; [by destruct (H js)|].
  destruct (Hr js eq_refl) as [-> ->].
  assert (src ∈ (jobs l).*1) as Hsrc
    by (apply list_elem_of_fmap; by exists (src, dst)).
  apply (move_jobs_sources_gone _ _ _ _ src Hmv); [|by right].
  by eapply no_destination_is_a_source.
Qed.

(** Property X10.  When overwriting is off, the run returns its jobs and no
    two of them have the same destination, every destination holds the
    bytes its source had before the run. *)
Theorem destinations_hold_the_bytes_of_the_sources
    cfg inputs d dry mk idify p p' js :
  file find_imports idf cfg inputs d dry mk false idify p = (p', Ok (Some js)) →
  NoDup js.*2 →
  ∀ src dst, (src, dst) ∈ js →
    ∃ f, files (fs p) !! src = Some f ∧
         files (fs p') !! dst = Some (Inode (contents f) (clock (fs p))).
Proof.
  intros E Hnd.
  destruct (file_outcome cfg inputs d dry mk false idify p)
    as [[_ H]|(p1 & l & _ & _ & Hall & r & Hmv & Hr)];
    rewrite E in *; simpl in *; [by destruct (H js)|].
  destruct (Hr js eq_refl) as [-> ->].
  apply (move_jobs_delivers _ _ _ _ Hmv Hnd).
  by eapply no_destination_is_a_source.
Qed.

(** Property X11.  A run removes no directory, and without [mkdirs] it
    makes none either. *)
Theorem directories_are_kept cfg inputs d dry mk ow idify p :
  dirs (fs p) ⊆ dirs (fs (file find_imports idf cfg inputs d dry mk ow idify p).1) ∧
  dirs (fs (file find_imports idf cfg inputs d dry false ow idify p).1)
    = dirs (fs p).
Proof.
  split.
  - destruct (file_outcome cfg inputs d dry mk ow idify p)
      as [[-> _]|(p1 & l & _ & _ & _ & r & Hmv & _)]; [done|].
    by apply move_jobs_keeps_dirs in Hmv as [? _].
  - destruct (file_outcome cfg inputs d dry false ow idify p)
      as [[-> _]|(p1 & l & _ & _ & _ & r & Hmv & _)]; [done|].
    by apply move_jobs_without_mkdirs in Hmv.
Qed.

(** Property X12.  [main] leaves the file system as it is when the output
    directory is the empty string, when it does not exist, and when
    [--dry-run] is given. *)
Theorem main_leaves_the_files_when_it_moves_nothing args config downloads p :
  output_dir args = "" ∨ os.exists_ (fs p) (output_dir args) = false
    ∨ dry_run args = true →
  fs (main find_imports idf args config downloads p).1 = fs p.
Proof.
  intros H. unfold main.
  case_bool_decide; [done|].
  destruct (os.exists_ (fs p) (output_dir args)) eqn:Hex; [|done]. simpl.
  destruct H as [?|[?|Hdry]]; [done..|]. rewrite Hdry.
  set (p0 := Process (fs p) (errors p) (Some (default [] (logfile p)))).
  pose proof (file_dry_run find_imports idf config downloads
                (output_dir args) true (overwrite args) true p0) as [Hfs _].
  by destruct (file _ _ _ _ _ _ _ _ _ p0) as [p' [v|e]].
Qed.

End Effects.

Section Output.
Variable find_imports :
  list Importer.t → list string → filesystem → list (string * list Importer.t).
Variable idf : string → string.

(** Property X13.  The importers after the first one only vote on the
    account: when the importers of a file agree on one account, a round of
    the loop is the same whatever the importers after the first are, the
    date and the name being asked from the first, line 93. *)
Theorem later_importers_only_vote_on_the_account
    d mk ow idify l filename importer rest rest' a p :
  file_accounts_of (importer :: rest) (cache.Build filename) = {[Some a]} →
  file_accounts_of (importer :: rest') (cache.Build filename) = {[Some a]} →
  file_body idf d mk ow idify l (filename, importer :: rest) p
  = file_body idf d mk ow idify l (filename, importer :: rest') p.
Proof.
  intros H1 H2. unfold file_body. rewrite H1, H2.
  rewrite bool_decide_eq_false_2 by (apply non_empty_singleton_L).
  rewrite size_singleton, bool_decide_eq_false_2 by lia.
  by rewrite elements_singleton.
Qed.

Lemma file_output cfg inputs d dry mk ow idify p :
  errors (file find_imports idf cfg inputs d dry mk ow idify p).1
    = errors (resolve idf (find_imports cfg inputs (fs p)) d mk ow idify p).1 ∧
  logfile (file find_imports idf cfg inputs d dry mk ow idify p).1
    = logfile (resolve idf (find_imports cfg inputs (fs p)) d mk ow idify p).1.
Proof.
  rewrite !file_run. set (ms := find_imports cfg inputs (fs p)).
  destruct (resolve idf ms d mk ow idify p) as [p1 [l|e]] eqn:E.
  - destruct (dry || has_errors l) eqn:Hg.
    + by destruct (file_matches_gate idf ms d dry mk ow idify p p1 l E Hg)
        as [-> _].
    + rewrite (file_matches_moves idf ms d dry mk ow idify p p1 l E Hg).
      by destruct (move_jobs (jobs l) mk (fs p)) as [fs' [[]|e]].
  - by rewrite (file_matches_raise _ _ _ _ _ _ _ _ _ _ E).
Qed.

(** Property X14.  A dry run logs and writes to the log file what the run
    itself does. *)
Theorem dry_run_prints_what_the_run_prints cfg inputs d mk ow idify p :
  errors (file find_imports idf cfg inputs d true mk ow idify p).1
    = errors (file find_imports idf cfg inputs d false mk ow idify p).1 ∧
  logfile (file find_imports idf cfg inputs d true mk ow idify p).1
    = logfile (file find_imports idf cfg inputs d false mk ow idify p).1.
Proof.
  destruct (file_output cfg inputs d true mk ow idify p) as [-> ->].
  destruct (file_output cfg inputs d false mk ow idify p) as [-> ->].
  done.
Qed.

(** Property X15.  When [main] returns, the output holds what it held
    before followed by the block of lines 136 to 143 for each candidate
    that has one account, in the order of the candidates, the names being
    cleaned by [misc_utils.idify].  What [find_imports] prints itself is not
    part of the model. *)
Theorem main_reports_each_filed_candidate args config downloads p p' :
  main find_imports idf args config downloads p = (p', Returned) →
  logfile p' =
    Some (default [] (logfile p)
          ++ concat (report_of idf (output_dir args) true (fs p)
                       <$> find_imports config downloads (fs p))).
Proof.
  unfold main. case_bool_decide; [done|].
  destruct (os.exists_ (fs p) (output_dir args)); [|done]. simpl.
  set (p0 := Process (fs p) (errors p) (Some (default [] (logfile p)))).
  pose proof (file_output config downloads (output_dir args) (dry_run args)
                true (overwrite args) true p0) as [_ Hlog].
  destruct (file _ _ _ _ _ _ _ _ _ p0) as [p1 [v|e]] eqn:E; [|done].
  intros [= <-]. simpl in Hlog. rewrite Hlog.
  change (fs p0) with (fs p).
  destruct (resolve idf (find_imports config downloads (fs p))
              (output_dir args) true (overwrite args) true p0)
    as [p2 [l|e]] eqn:Hres.
  - apply resolve_loop_ok in Hres as (_ & _ & Hl). simpl. by rewrite Hl.
  - rewrite file_run in E. change (fs p0) with (fs p) in E.
    by rewrite (file_matches_raise _ _ _ _ _ _ _ _ _ _ Hres) in E.
Qed.

End Output.



Section Names.
Import Text TextFacts Path PathFacts.


End Names.

(** ** The further properties at work *)

Section MoreWitnesses.
Import Scenario Invocation.

(** [resolution_returns_on_files_with_a_date] on three candidates that are
    files of 2014. *)
Lemma resolution_returns_on_files_with_a_date_witness :
  ∃ p' l, resolve idify batch "/docs" true false true (start downloads)
          = (p', Ok l).
Proof.
  apply (resolution_returns_on_files_with_a_date idify batch "/docs"
           true false true (start downloads)).
  intros filename importers Hin _.
  repeat (apply elem_of_cons in Hin as [[= -> _]|Hin];
          [eexists; split; [vm_compute; reflexivity|];
           eexists; vm_compute; reflexivity|]).
  by apply elem_of_nil in Hin.
Defined.

(** [jobs_in_candidate_order] on three candidates, the first of them without account. *)
Lemma jobs_in_candidate_order_witness :
  [("statement.pdf", filed_statement); ("in1/s.pdf", filed_s)]
    = omap (job_of idify "/docs" true false false downloads) batch ∧
  false = existsb (refused idify "/docs" true false false downloads) batch.
Proof.
  exact (jobs_in_candidate_order idify batch "/docs" true false false
           (start downloads)
           (resolve idify batch "/docs" true false false (start downloads)).1
           (Locals [("statement.pdf", filed_statement); ("in1/s.pdf", filed_s)]
              false)
           ltac:(vm_compute; reflexivity)).
Defined.

(** [report_per_filed_candidate] on the same three candidates. *)
Lemma report_per_filed_candidate_witness :
  logfile (resolve idify batch "/docs" true false false (start downloads)).1
  = Some ([] ++ concat (report_of idify "/docs" false downloads <$> batch)).
Proof.
  exact (report_per_filed_candidate idify batch "/docs" true false false
           (start downloads)
           (resolve idify batch "/docs" true false false (start downloads)).1
           (Locals [("statement.pdf", filed_statement); ("in1/s.pdf", filed_s)]
              false)
           ltac:(vm_compute; reflexivity)).
Defined.

(** [refused_destination_stops_the_run] on a statement whose account directory is
    missing, directories not being made. *)
Lemma refused_destination_stops_the_run_witness :
  fs (run [checking] ["statement.pdf"] "/docs" false false false false
        downloads).1 = downloads.
Proof.
  exact (proj1 (refused_destination_stops_the_run find_imports idify [checking]
                  ["statement.pdf"] "/docs" false false false false
                  (start downloads) ltac:(vm_compute; reflexivity))).
Defined.

(** [move_touches_source_and_destination_only] on the move of the statement, seen
    from the invoice. *)
Lemma move_touches_source_and_destination_only_witness :
  files (move_xdev_file "statement.pdf" filed_statement true downloads).1
    !! "invoice.csv" = files downloads !! "invoice.csv".
Proof.
  apply (move_touches_source_and_destination_only "statement.pdf"
           filed_statement true downloads "invoice.csv"); discriminate.
Defined.

(** [run_touches_candidates_and_destinations_only] on the filing of the
    statement, seen from the invoice. *)
Lemma run_touches_candidates_and_destinations_only_witness :
  files (fs (run [checking] ["statement.pdf"] "/docs" false true false false
               downloads).1) !! "invoice.csv"
  = files downloads !! "invoice.csv".
Proof.
  apply (run_touches_candidates_and_destinations_only find_imports idify
           [checking] ["statement.pdf"] "/docs" false true false false
           (start downloads) "invoice.csv").
  - intros Hin. vm_compute in Hin.
    apply elem_of_cons in Hin as [?|Hin]; [discriminate|].
    by apply elem_of_nil in Hin.
  - intros m Hin.
    apply elem_of_cons in Hin as [->|Hin]; [vm_compute; discriminate|].
    by apply elem_of_nil in Hin.
Defined.

(** [sources_gone_after_a_run_without_overwrite] on the filing of the statement. *)
Lemma sources_gone_after_a_run_without_overwrite_witness :
  files (fs (run [checking] ["statement.pdf"] "/docs" false true false false
               downloads).1) !! "statement.pdf" = None.
Proof.
  apply (sources_gone_after_a_run_without_overwrite find_imports idify
           [checking] ["statement.pdf"] "/docs" false true false
           (start downloads)
           (run [checking] ["statement.pdf"] "/docs" false true false false
              downloads).1
           [("statement.pdf", filed_statement)]
           ltac:(vm_compute; reflexivity)
           "statement.pdf" filed_statement).
  apply list_elem_of_here.
Defined.

(** [destinations_hold_the_bytes_of_the_sources] on the filing of the statement. *)
Lemma destinations_hold_the_bytes_of_the_sources_witness :
  ∃ f, files downloads !! "statement.pdf" = Some f ∧
       files (fs (run [checking] ["statement.pdf"] "/docs" false true false
                    false downloads).1) !! filed_statement
       = Some (Inode (contents f) (clock downloads)).
Proof.
  apply (destinations_hold_the_bytes_of_the_sources find_imports idify
           [checking] ["statement.pdf"] "/docs" false true false
           (start downloads)
           (run [checking] ["statement.pdf"] "/docs" false true false false
              downloads).1
           [("statement.pdf", filed_statement)]
           ltac:(vm_compute; reflexivity)).
  - apply NoDup_singleton.
  - apply list_elem_of_here.
Defined.

(** [main_leaves_the_files_when_it_moves_nothing] on a dry run of the script. *)
Lemma main_leaves_the_files_when_it_moves_nothing_witness :
  fs (launch preview [checking] ["statement.pdf"] downloads).1 = downloads.
Proof.
  apply (main_leaves_the_files_when_it_moves_nothing find_imports idify
           preview [checking] ["statement.pdf"] (start downloads)).
  right. right. reflexivity.
Defined.

(** [later_importers_only_vote_on_the_account] on the statement with two
    importers of its account and with one. *)
Lemma later_importers_only_vote_on_the_account_witness :
  file_body idify "/docs" true false false (Locals [] false)
    ("statement.pdf", [checking; checking_dated]) (start downloads)
  = file_body idify "/docs" true false false (Locals [] false)
      ("statement.pdf", [checking]) (start downloads).
Proof.
  apply (later_importers_only_vote_on_the_account idify "/docs" true false
           false (Locals [] false) "statement.pdf" checking [checking_dated] []
           "Assets:Bank:Checking" (start downloads));
    (apply file_accounts_singleton;
     [vm_compute; left
     |vm_compute; intros b Hb;
      repeat (apply elem_of_cons in Hb as [->|Hb]; [reflexivity|]);
      by apply elem_of_nil in Hb]).
Defined.


(** [main_reports_each_filed_candidate] on a dry run of the script. *)
Lemma main_reports_each_filed_candidate_witness :
  logfile (launch preview [checking] ["statement.pdf"] downloads).1
  = Some ([] ++ concat (report_of idify "/docs" true downloads
                          <$> find_imports [checking] ["statement.pdf"]
                                downloads)).
Proof.
  exact (main_reports_each_filed_candidate find_imports idify preview
           [checking] ["statement.pdf"] (start downloads)
           (launch preview [checking] ["statement.pdf"] downloads).1
           ltac:(vm_compute; reflexivity)).
Defined.

(** [a_file_without_a_date_stops_the_run] on a statement of the year 10000
    whose importer reads a date in it. *)
Lemma a_file_without_a_date_stops_the_run_witness :
  ∃ p' e,
    run [checking_dated] ["statement.pdf"] "/docs" false true false false
      misdated = (p', Raise e) ∧
    fs p' = misdated.
Proof.
  apply (a_file_without_a_date_stops_the_run find_imports idify
           [checking_dated] ["statement.pdf"] "/docs" false true false false
           (start misdated) "statement.pdf" checking_dated []
           "Assets:Bank:Checking" (Inode "%PDF-1.4" 253402300800000000)).
  - vm_compute. left.
  - apply file_accounts_singleton.
    + vm_compute. left.
    + vm_compute. intros b Hb.
      repeat (apply elem_of_cons in Hb as [->|Hb]; [reflexivity|]).
      by apply elem_of_nil in Hb.
  - reflexivity.
  - vm_compute. reflexivity.
Defined.

End MoreWitnesses.
